(** * sphinx-reindexer: a shallow embedding of [reindexer.go]

    The program is a small TCP service.  A request asks either for a
    liveness answer or for a rebuild of a search index; a rebuild records
    the timestamp of the last line of the search daemon's log, runs the
    external indexer and then polls the log for a completion line that is
    newer than the recorded timestamp.

    The Go functions are embedded as Rocq functions under their own names.
    The pieces of the Go standard library they call ([time], [regexp],
    [bufio], [encoding/json], [strconv]) are modelled in modules named after
    the packages; Go strings are byte strings and are modelled by [string].
    Diagnostics printed with [fmt.Println] are not modelled. *)

From Stdlib Require Import ZArith List String Ascii Bool Lia.
Import ListNotations.
Open Scope string_scope.
Open Scope Z_scope.

(** ** Bytes and strings *)

Definition code (c : ascii) : Z := Z.of_N (N_of_ascii c).

Definition chr (z : Z) : ascii := ascii_of_N (Z.to_N z).

Definition isDigit (c : ascii) : bool := (48 <=? code c) && (code c <=? 57).

Definition digitVal (c : ascii) : Z := code c - 48.

Definition eqc (c d : ascii) : bool := Ascii.eqb c d.

(** The double quote, the backslash and the control bytes that the sources
    write as escapes. *)
Definition dquote : ascii := chr 34.
Definition backslash : ascii := chr 92.
Definition NUL : ascii := chr 0.
Definition LF : ascii := chr 10.
Definition CR : ascii := chr 13.
Definition TAB : ascii := chr 9.
Definition FF : ascii := chr 12.
Definition BS : ascii := chr 8.

Definition str (c : ascii) : string := String c EmptyString.

Definition len (s : string) : Z := Z.of_nat (String.length s).

Fixpoint take (n : nat) (s : string) : string :=
  match n, s with
  | S n', String c s' => String c (take n' s')
  | _, _ => EmptyString
  end.

Fixpoint drop (n : nat) (s : string) : string :=
  match n, s with
  | S n', String _ s' => drop n' s'
  | _, _ => s
  end.

Fixpoint repeat_byte (c : ascii) (n : nat) : string :=
  match n with
  | O => EmptyString
  | S n' => String c (repeat_byte c n')
  end.

Fixpoint contains_byte (c : ascii) (s : string) : bool :=
  match s with
  | EmptyString => false
  | String a s' => eqc a c || contains_byte c s'
  end.

Definition hexDigit (z : Z) : ascii :=
  if z <? 10 then chr (48 + z) else chr (87 + z).

(** Two's complement wrap-around of Go's 64-bit [int], [int64] and
    [time.Duration]. *)
Definition wrap64 (z : Z) : Z := (z + 2 ^ 63) mod 2 ^ 64 - 2 ^ 63.

(** Two's complement wrap-around of Go's [int32]. *)
Definition wrap32 (z : Z) : Z := (z + 2 ^ 31) mod 2 ^ 32 - 2 ^ 31.

Definition maxInt64 : Z := 2 ^ 63 - 1.
Definition minInt64 : Z := - 2 ^ 63.

(** ** Errors

    Go's [error] values that can reach a response of this program, with
    the text their [Error] method produces ([errorText]).  The errors of [strconv],
    [time] and [bufio] are dropped where they arise and have types of
    their own. *)

Inductive error : Type :=
| errorString (s : string)                         (* errors.New *)
| PathError (op path msg : string)                 (* os: open, stat, seek *)
| SyntaxError (msg : string) (offset : Z)          (* encoding/json *)
| UnmarshalTypeError (value struct field type : string) (* encoding/json *)
| OpError (msg : string)                           (* net *)
| ExecError (msg : string).                        (* os/exec *)

Definition errorText (e : error) : string :=
  match e with
  | errorString s => s
  | PathError op path msg => op ++ " " ++ path ++ ": " ++ msg
  | SyntaxError msg _ => msg
  | UnmarshalTypeError value struct field type =>
      if String.eqb struct "" && String.eqb field ""
      then "json: cannot unmarshal " ++ value ++ " into Go value of type " ++ type
      else "json: cannot unmarshal " ++ value ++ " into Go struct field "
           ++ struct ++ "." ++ field ++ " of type " ++ type
  | OpError msg => msg
  | ExecError msg => msg
  end.

Definition errors_New (s : string) : error := errorString s.

(** ** Package [strconv] *)

Module strconv.

Record NumError : Type := mkNumError { Func : string; Num : string; Err : string }.

(** Value of a run of decimal digits, [None] when a byte is not a digit. *)
Fixpoint digits (acc : Z) (s : string) : option Z :=
  match s with
  | EmptyString => Some acc
  | String c s' => if isDigit c then digits (acc * 10 + digitVal c) s' else None
  end.

(** [strconv.Atoi]: an optional sign and decimal digits.  A syntax error
    yields 0 and a value outside [int] yields the nearest bound, each
    with an error. *)
Definition Atoi (s : string) : Z * option NumError :=
  let syntax := (0, Some (mkNumError "Atoi" s "invalid syntax")) in
  let '(neg, body) :=
    match s with
    | String c s' =>
        if eqc c "-" then (true, s') else if eqc c "+" then (false, s') else (false, s)
    | EmptyString => (false, s)
    end in
  match body with
  | EmptyString => syntax
  | _ =>
      match digits 0 body with
      | None => syntax
      | Some n =>
          let v := if neg then - n else n in
          if maxInt64 <? v then (maxInt64, Some (mkNumError "Atoi" s "value out of range"))
          else if v <? minInt64 then (minInt64, Some (mkNumError "Atoi" s "value out of range"))
          else (v, None)
      end
  end.

End strconv.

(** ** Package [time] *)

Module time.

(** An instant: seconds since January 1 of year 1, 00:00:00 UTC, and the
    nanoseconds within that second.  All instants of this program are in
    UTC and carry no monotonic clock reading. *)
Record Time : Type := mkTime { sec : Z; nsec : Z }.

(** The zero value [time.Time{}]. *)
Definition zero : Time := mkTime 0 0.

Definition After (t u : Time) : bool :=
  (sec u <? sec t) || ((sec t =? sec u) && (nsec u <? nsec t)).

Definition Equal (t u : Time) : bool :=
  (sec t =? sec u) && (nsec t =? nsec u).

(** Durations are nanosecond counts. *)
Definition Millisecond : Z := 1000000.

(** [t.Add(d)] returns a new instant and leaves [t] as it is. *)
Definition Add (t : Time) (d : Z) : Time :=
  let dsec := Z.quot d 1000000000 in
  let n := nsec t + Z.rem d 1000000000 in
  if 1000000000 <=? n then mkTime (sec t + dsec + 1) (n - 1000000000)
  else if n <? 0 then mkTime (sec t + dsec - 1) (n + 1000000000)
  else mkTime (sec t + dsec) n.

Definition isLeap (y : Z) : bool :=
  (y mod 4 =? 0) && (negb (y mod 100 =? 0) || (y mod 400 =? 0)).

Definition daysIn (m y : Z) : Z :=
  if m =? 2 then (if isLeap y then 29 else 28)
  else if (m =? 4) || (m =? 6) || (m =? 9) || (m =? 11) then 30
  else 31.

(** Days of year [y] that precede the first day of month [m]. *)
Definition daysBefore (m y : Z) : Z :=
  let common :=
    if m <=? 1 then 0 else if m =? 2 then 31 else if m =? 3 then 59
    else if m =? 4 then 90 else if m =? 5 then 120 else if m =? 6 then 151
    else if m =? 7 then 181 else if m =? 8 then 212 else if m =? 9 then 243
    else if m =? 10 then 273 else if m =? 11 then 304 else 334 in
  if (3 <=? m) && isLeap y then common + 1 else common.

(** Days from January 1 of year 1 to January 1 of year [y]. *)
Definition daysSinceEpoch (y : Z) : Z :=
  365 * (y - 1) + (y - 1) / 4 - (y - 1) / 100 + (y - 1) / 400.

(** [time.Date] in UTC, for a month in 1..12 and [nsec] below one
    second, which is how [Parse] calls it. *)
Definition Date (year month day hour min sec nsec : Z) : Time :=
  mkTime ((daysSinceEpoch year + daysBefore month year + (day - 1)) * 86400
          + hour * 3600 + min * 60 + sec) nsec.

Record ParseError : Type := mkParseError
  { LayoutElem : string; ValueElem : string; Message : string }.

(** Layout elements that [dateFormat] uses. *)
Inductive std : Type :=
| stdWeekDay | stdMonth | stdDay | stdHour
| stdZeroMinute | stdZeroSecond | stdLongYear.

(** A layout cut into chunks as [nextStdChunk] cuts it: literal text
    followed by an element. *)
Definition Layout : Type := list (string * std).

Record fields : Type := mkFields
  { f_year : Z; f_month : Z; f_day : Z;
    f_hour : Z; f_min : Z; f_sec : Z; f_nsec : Z }.

(** [parse] starts with no month and no day. *)
Definition noFields : fields := mkFields 0 (-1) (-1) 0 0 0 0.

Fixpoint cutspace (s : string) : string :=
  match s with
  | String c s' => if eqc c " " then cutspace s' else s
  | EmptyString => s
  end.

(** [skip value prefix]: remove [prefix] from [value]; a run of spaces
    in the prefix stands for any run of spaces in the value, and is
    refused only by a value that goes on with another byte.  [inrun]
    tells that the spaces of the value have been cut already for the
    run of spaces the prefix is in. *)
Fixpoint skip' (inrun : bool) (value prefix : string) : option string :=
  match prefix with
  | EmptyString => Some value
  | String p prefix' =>
      if eqc p " " then
        if inrun then skip' true value prefix'
        else
          match value with
          | EmptyString => skip' true value prefix'
          | String v _ =>
              if eqc v " " then skip' true (cutspace value) prefix' else None
          end
      else
        match value with
        | EmptyString => None
        | String v value' => if eqc v p then skip' false value' prefix' else None
        end
  end.

Definition skip (value prefix : string) : option string :=
  skip' false value prefix.

Definition lower (c : ascii) : Z := Z.lor (code c) 32.

(** [match]: equality of two strings of one length, ignoring the case
    of letters. *)
Fixpoint matchFold (s1 s2 : string) : bool :=
  match s1, s2 with
  | String c1 r1, String c2 r2 =>
      (if eqc c1 c2 then true
       else (lower c1 =? lower c2) && (97 <=? lower c1) && (lower c1 <=? 122))
      && matchFold r1 r2
  | _, _ => true
  end.

(** [lookup tab val]: index of the first name of [tab] that [val]
    starts with, and the rest of [val]. *)
Fixpoint lookup (tab : list string) (i : Z) (val : string) : option (Z * string) :=
  match tab with
  | [] => None
  | v :: tab' =>
      if (String.length v <=? String.length val)%nat
         && matchFold (take (String.length v) val) v
      then Some (i, drop (String.length v) val)
      else lookup tab' (i + 1) val
  end.

Definition shortDayNames : list string :=
  ["Sun"; "Mon"; "Tue"; "Wed"; "Thu"; "Fri"; "Sat"].

Definition shortMonthNames : list string :=
  ["Jan"; "Feb"; "Mar"; "Apr"; "May"; "Jun";
   "Jul"; "Aug"; "Sep"; "Oct"; "Nov"; "Dec"].

(** [getnum s fixed]: a one- or two-digit number at the head of [s];
    [fixed] demands two digits. *)
Definition getnum (s : string) (fixed : bool) : option (Z * string) :=
  match s with
  | String c0 s0 =>
      if isDigit c0 then
        match s0 with
        | String c1 s1 =>
            if isDigit c1 then Some (digitVal c0 * 10 + digitVal c1, s1)
            else if fixed then None else Some (digitVal c0, s0)
        | EmptyString => if fixed then None else Some (digitVal c0, s0)
        end
      else None
  | EmptyString => None
  end.

Fixpoint spanDigits (s : string) : string * string :=
  match s with
  | String c s' =>
      if isDigit c then let '(d, r) := spanDigits s' in (String c d, r)
      else (EmptyString, s)
  | EmptyString => (EmptyString, EmptyString)
  end.

Fixpoint scale (n : nat) (z : Z) : Z :=
  match n with
  | O => z
  | S n' => scale n' (z * 10)
  end.

(** [parseNanoseconds] on the digits that follow the separator: at
    most nine of them count, scaled to nanoseconds. *)
Definition parseNanoseconds (ds : string) : Z :=
  let kept := take 9 ds in
  match strconv.digits 0 kept with
  | Some ns => scale (9 - String.length kept) ns
  | None => 0
  end.

Definition commaOrPeriod (c : ascii) : bool := eqc c "." || eqc c ",".

(** One layout element of [parse]'s loop.  The result is the updated
    fields and the rest of the value, or the message of the parse
    error. *)
Definition element (s : std) (f : fields) (value : string)
  : sum string (fields * string) :=
  let bad := inl "" in
  match s with
  | stdWeekDay =>
      match lookup shortDayNames 0 value with
      | Some (_, rest) => inr (f, rest)
      | None => bad
      end
  | stdMonth =>
      match lookup shortMonthNames 0 value with
      | Some (m, rest) =>
          inr (mkFields (f_year f) (m + 1) (f_day f) (f_hour f) (f_min f)
                        (f_sec f) (f_nsec f), rest)
      | None => bad
      end
  | stdDay =>
      match getnum value false with
      | Some (d, rest) =>
          inr (mkFields (f_year f) (f_month f) d (f_hour f) (f_min f)
                        (f_sec f) (f_nsec f), rest)
      | None => bad
      end
  | stdHour =>
      match getnum value false with
      | Some (h, rest) =>
          if (h <? 0) || (24 <=? h) then inl ": hour out of range"
          else inr (mkFields (f_year f) (f_month f) (f_day f) h (f_min f)
                             (f_sec f) (f_nsec f), rest)
      | None => bad
      end
  | stdZeroMinute =>
      match getnum value true with
      | Some (m, rest) =>
          if (m <? 0) || (60 <=? m) then inl ": minute out of range"
          else inr (mkFields (f_year f) (f_month f) (f_day f) (f_hour f) m
                             (f_sec f) (f_nsec f), rest)
      | None => bad
      end
  | stdZeroSecond =>
      match getnum value true with
      | Some (s, rest) =>
          if (s <? 0) || (60 <=? s) then inl ": second out of range"
          else
            (* a fractional second in the value that the layout does
               not announce eqc read all the same *)
            match rest with
            | String c0 (String c1 r1) =>
                if commaOrPeriod c0 && isDigit c1 then
                  let '(ds, rest') := spanDigits (String c1 r1) in
                  inr (mkFields (f_year f) (f_month f) (f_day f) (f_hour f)
                                (f_min f) s (parseNanoseconds ds), rest')
                else
                  inr (mkFields (f_year f) (f_month f) (f_day f) (f_hour f)
                                (f_min f) s (f_nsec f), rest)
            | _ =>
                inr (mkFields (f_year f) (f_month f) (f_day f) (f_hour f)
                              (f_min f) s (f_nsec f), rest)
            end
      | None => bad
      end
  | stdLongYear =>
      match value with
      | String c0 _ =>
          if (4 <=? String.length value)%nat && isDigit c0 then
            match strconv.digits 0 (take 4 value) with
            | Some y =>
                inr (mkFields y (f_month f) (f_day f) (f_hour f) (f_min f)
                              (f_sec f) (f_nsec f), drop 4 value)
            | None => bad
            end
          else bad
      | EmptyString => bad
      end
  end.

Definition stdText (s : std) : string :=
  match s with
  | stdWeekDay => "Mon" | stdMonth => "Jan" | stdDay => "2"
  | stdHour => "15" | stdZeroMinute => "04" | stdZeroSecond => "05"
  | stdLongYear => "2006"
  end.

(** The loop of [parse] over the chunks of the layout. *)
Fixpoint chunks (l : Layout) (f : fields) (value : string)
  : sum ParseError (fields * string) :=
  match l with
  | [] => inr (f, value)
  | (prefix, s) :: l' =>
      match skip value prefix with
      | None => inl (mkParseError prefix value "")
      | Some value' =>
          match element s f value' with
          | inl msg => inl (mkParseError (stdText s) value' msg)
          | inr (f', value'') => chunks l' f' value''
          end
      end
  end.

(** A month or a day that the layout did not ask for is the first. *)
Definition settle (f : fields) : fields :=
  mkFields (f_year f)
           (if f_month f <? 0 then 1 else f_month f)
           (if f_day f <? 0 then 1 else f_day f)
           (f_hour f) (f_min f) (f_sec f) (f_nsec f).

(** [time.Parse]: on every failure the result is the zero [Time] and
    the error. *)
Definition Parse (layout : Layout) (value : string) : Time * option ParseError :=
  match chunks layout noFields value with
  | inl e => (zero, Some e)
  | inr (f, rest) =>
      match rest with
      | String _ _ => (zero, Some (mkParseError "" rest ": extra text"))
      | EmptyString =>
          let f := settle f in
          if (f_day f <? 1) || (daysIn (f_month f) (f_year f) <? f_day f)
          then (zero, Some (mkParseError "" rest ": day out of range"))
          else (Date (f_year f) (f_month f) (f_day f) (f_hour f) (f_min f)
                     (f_sec f) (f_nsec f), None)
      end
  end.

End time.

(** ** Package [regexp]

    The two patterns of the program use literal bytes, one-byte classes,
    a greedy star over a class, concatenation and capture groups.  The
    matcher is a backtracking one: it tries the alternatives of a star
    longest first and returns the first match it completes, and the
    search tries the start offsets from the left, which is the match that
    Go's [regexp] reports.  The patterns delimit every group by ASCII
    bytes, so matching bytes and matching UTF-8 runes agree. *)

Module regexp.

Inductive Regexp : Type :=
| Byte (p : ascii -> bool)
| Star (p : ascii -> bool)
| Cat (r1 r2 : Regexp)
| Group (i : nat) (r : Regexp)
| Empty.

(** Offsets of the groups that have matched: index, start, end. *)
Definition Caps : Type := list (nat * (nat * nat)).

Definition Cont : Type := string -> nat -> Caps -> option (nat * Caps).

Fixpoint star (p : ascii -> bool) (s : string) (pos : nat) (c : Caps) (k : Cont)
  : option (nat * Caps) :=
  match s with
  | String a s' =>
      if p a then
        match star p s' (S pos) c k with
        | Some r => Some r
        | None => k s pos c
        end
      else k s pos c
  | EmptyString => k s pos c
  end.

Fixpoint run (r : Regexp) (s : string) (pos : nat) (c : Caps) (k : Cont)
  : option (nat * Caps) :=
  match r with
  | Byte p =>
      match s with
      | String a s' => if p a then k s' (S pos) c else None
      | EmptyString => None
      end
  | Star p => star p s pos c k
  | Cat r1 r2 => run r1 s pos c (fun s' pos' c' => run r2 s' pos' c' k)
  | Group i r' => run r' s pos c (fun s' pos' c' => k s' pos' ((i, (pos, pos')) :: c'))
  | Empty => k s pos c
  end.

Definition accept : Cont := fun _ pos c => Some (pos, c).

(** Leftmost match: start offset, end offset and groups. *)
Fixpoint find (r : Regexp) (s : string) (pos : nat) : option (nat * nat * Caps) :=
  match run r s pos [] accept with
  | Some (e, c) => Some (pos, e, c)
  | None =>
      match s with
      | String _ s' => find r s' (S pos)
      | EmptyString => None
      end
  end.

Fixpoint group (c : Caps) (i : nat) : option (nat * nat) :=
  match c with
  | [] => None
  | (j, se) :: c' => if Nat.eqb i j then Some se else group c' i
  end.

Fixpoint NumSubexp (r : Regexp) : nat :=
  match r with
  | Byte _ | Star _ | Empty => 0
  | Cat r1 r2 => Nat.max (NumSubexp r1) (NumSubexp r2)
  | Group i r' => Nat.max i (NumSubexp r')
  end.

Definition slice (s : string) (b e : nat) : string := substring b (e - b) s.

(** [FindStringSubmatch]: the text of the leftmost match followed by
    the texts of its groups, [nil] when nothing matches. *)
Definition FindStringSubmatch (r : Regexp) (s : string) : list string :=
  match find r s 0 with
  | None => []
  | Some (b, e, c) =>
      slice s b e ::
      map (fun i => match group c i with
                    | Some (gb, ge) => slice s gb ge
                    | None => ""
                    end)
          (seq 1 (NumSubexp r))
  end.

(** Pattern pieces. *)
Definition lit (c : ascii) : Regexp := Byte (eqc c).
Definition digit : Regexp := Byte isDigit.
(** [\s] is [[\t\n\f\r ]]. *)
Definition space : Regexp :=
  Byte (fun c => eqc c TAB || eqc c LF || eqc c FF || eqc c CR || eqc c " ").
(** [.] is any byte but the line feed. *)
Definition dotStar : Regexp := Star (fun c => negb (eqc c LF)).

Definition cat (rs : list Regexp) : Regexp := fold_right Cat Empty rs.

(** A text that holds no metacharacter, read as a pattern. *)
Fixpoint literal (text : string) : Regexp :=
  match text with
  | EmptyString => Empty
  | String c text' => Cat (lit c) (literal text')
  end.

End regexp.

(** ** Package [os]: the log file

    A file of the file system is its bytes, or the error that opening it
    or asking for its size gives.  An open file is a path with a read
    offset; its bytes are looked up in the file system at each read, so a
    read sees what another process has appended since. *)

Module os.

Record Node : Type := mkNode
  { open_err : option error; stat_err : option error; bytes : string }.

Definition FS : Type := string -> Node.

Record File : Type := mkFile { path : string; offset : Z }.

Definition Open (fs : FS) (name : string) : sum error File :=
  match open_err (fs name) with
  | Some e => inl e
  | None => inr (mkFile name 0)
  end.

(** [file.Stat()] followed by [Size()]. *)
Definition Stat (fs : FS) (f : File) : sum error Z :=
  match stat_err (fs (path f)) with
  | Some e => inl e
  | None => inr (len (bytes (fs (path f))))
  end.

(** [file.Seek(off, whence)]: whence 0 counts from the start, 1 from
    the read offset, 2 from the end.  An offset before the start is
    refused and leaves the file as it was. *)
Definition Seek (fs : FS) (f : File) (off whence : Z) : File * Z * option error :=
  let base :=
    if whence =? 0 then 0
    else if whence =? 1 then offset f
    else len (bytes (fs (path f))) in
  if base + off <? 0
  then (f, 0, Some (PathError "seek" (path f) "invalid argument"))
  else (mkFile (path f) (base + off), base + off, None).

(** The bytes from the read offset to the end of the file. *)
Definition rest (fs : FS) (f : File) : string :=
  drop (Z.to_nat (offset f)) (bytes (fs (path f))).

Definition advance (f : File) (n : nat) : File :=
  mkFile (path f) (offset f + Z.of_nat n).

(** Another process appends [text] to the file at [name]. *)
Definition append (fs : FS) (name text : string) : FS :=
  fun p =>
    if String.eqb p name
    then mkNode (open_err (fs p)) (stat_err (fs p)) (bytes (fs p) ++ text)
    else fs p.

End os.

(** ** Package [bufio]: a [Scanner] that splits lines

    A read of a regular file returns all the bytes asked for that the
    file has, and end of file after them. *)

Module bufio.

Definition ErrTooLong : error := errors_New "bufio.Scanner: token too long".

Definition startBufSize : Z := 4096.
Definition MaxScanTokenSize : Z := 65536.

Fixpoint IndexByte (s : string) (c : ascii) : option nat :=
  match s with
  | EmptyString => None
  | String a s' =>
      if eqc a c then Some O
      else match IndexByte s' c with
           | Some i => Some (S i)
           | None => None
           end
  end.

Fixpoint dropCR (s : string) : string :=
  match s with
  | EmptyString => EmptyString
  | String a EmptyString => if eqc a CR then EmptyString else s
  | String a s' => String a (dropCR s')
  end.

(** The first [Scan] of a new scanner and the [Text] after it, on a
    reader that still holds [avail].  The buffer starts with 4096 bytes
    and doubles while it is full and holds no line feed; at 65536 bytes
    the scan gives up.  The result is the text (empty when the scan
    found no token), the number of bytes taken from the reader, and
    whether the scan ended with [ErrTooLong]. *)
Fixpoint firstScan (caps : list Z) (avail : string)
  : string * nat * bool :=
  match caps with
  | [] =>
      ("", String.length (take (Z.to_nat MaxScanTokenSize) avail), true)
  | cap :: caps' =>
      let buf := take (Z.to_nat cap) avail in
      match IndexByte buf LF with
      | Some i => (dropCR (take i buf), String.length buf, false)
      | None =>
          if len avail <? cap
          then (dropCR avail, String.length avail, false)
          else firstScan caps' avail
      end
  end.

Definition bufSizes : list Z :=
  [startBufSize; 8192; 16384; 32768; MaxScanTokenSize].

(** [scanner := bufio.NewScanner(file); scanner.Scan(); scanner.Text()] *)
Definition ScanText (fs : os.FS) (f : os.File) : string * os.File :=
  let '(text, n, _) := firstScan bufSizes (os.rest fs f) in
  (text, os.advance f n).

(** All the tokens of a scanner: the lines of [s], each without its
    line feed and without a carriage return before it; a last line
    needs no line feed.  [cur] is the line being read and [n] its
    length; a line of 65536 bytes or more ends the scan with
    [ErrTooLong], which the boolean reports. *)
Fixpoint tokens (s : string) (cur : string) (n : Z) : list string * bool :=
  match s with
  | EmptyString =>
      match cur with
      | EmptyString => ([], false)
      | _ => ([dropCR cur], false)
      end
  | String a s' =>
      if eqc a LF then
        let '(ls, e) := tokens s' EmptyString 0 in (dropCR cur :: ls, e)
      else if MaxScanTokenSize <=? n + 1 then ([], true)
      else tokens s' (cur ++ str a) (n + 1)
  end.

End bufio.

(** ** The messages of the service *)

Record Request : Type := mkRequest { Type_ : string; Index : string }.

Record Response : Type := mkResponse { Message : string; Error : string }.

(** ** Package [unicode/utf8] *)

Module utf8.

Definition cont (c : ascii) : bool := (128 <=? code c) && (code c <=? 191).

Definition between (lo hi : Z) (c : ascii) : bool :=
  (lo <=? code c) && (code c <=? hi).

(** Width of the encoding at the head of [s], 0 when the bytes there
    do not encode a rune ([DecodeRune] gives [RuneError] with width 1). *)
Definition width (s : string) : nat :=
  match s with
  | EmptyString => 0
  | String b0 s0 =>
      if code b0 <? 128 then 1
      else
        match s0 with
        | EmptyString => 0
        | String b1 s1 =>
            if between 194 223 b0 then (if cont b1 then 2 else 0)
            else
              match s1 with
              | EmptyString => 0
              | String b2 s2 =>
                  let second3 :=
                    (eqc b0 (chr 224) && between 160 191 b1)
                    || (between 225 236 b0 && cont b1)
                    || (eqc b0 (chr 237) && between 128 159 b1)
                    || (between 238 239 b0 && cont b1) in
                  if between 224 239 b0 then (if second3 && cont b2 then 3 else 0)
                  else
                    match s2 with
                    | EmptyString => 0
                    | String b3 _ =>
                        let second4 :=
                          (eqc b0 (chr 240) && between 144 191 b1)
                          || (between 241 243 b0 && cont b1)
                          || (eqc b0 (chr 244) && between 128 143 b1) in
                        if between 240 244 b0 && second4 && cont b2 && cont b3
                        then 4 else 0
                    end
              end
        end
  end.

(** The encoding of U+FFFD, the replacement rune. *)
Definition RuneError : string :=
  String (chr 239) (String (chr 191) (String (chr 189) EmptyString)).

(** [EncodeRune]; a surrogate or a value above U+10FFFF is encoded as
    U+FFFD. *)
Definition EncodeRune (r : Z) : string :=
  if r <? 0 then RuneError
  else if r <? 128 then str (chr r)
  else if r <? 2048 then
    String (chr (192 + Z.shiftr r 6)) (str (chr (128 + Z.land r 63)))
  else if (55296 <=? r) && (r <=? 57343) then RuneError
  else if r <? 65536 then
    String (chr (224 + Z.shiftr r 12))
      (String (chr (128 + Z.land (Z.shiftr r 6) 63)) (str (chr (128 + Z.land r 63))))
  else if r <=? 1114111 then
    String (chr (240 + Z.shiftr r 18))
      (String (chr (128 + Z.land (Z.shiftr r 12) 63))
         (String (chr (128 + Z.land (Z.shiftr r 6) 63)) (str (chr (128 + Z.land r 63)))))
  else RuneError.

End utf8.

(** ** Package [encoding/json] *)

Module json.

(** *** The scanner that [checkValid] runs over the input *)

Inductive state : Type :=
| stateBeginValueOrEmpty | stateBeginValue | stateBeginStringOrEmpty
| stateBeginString | stateEndValue | stateEndTop
| stateInString | stateInStringEsc | stateInStringEscU | stateInStringEscU1
| stateInStringEscU12 | stateInStringEscU123
| stateNeg | state1 | state0 | stateDot | stateDot0 | stateE | stateESign | stateE0
| stateT | stateTr | stateTru | stateF | stateFa | stateFal | stateFals
| stateN | stateNu | stateNul
| stateError.

Inductive parse : Type := parseObjectKey | parseObjectValue | parseArrayValue.

Inductive op : Type :=
| scanContinue | scanBeginLiteral | scanBeginObject | scanObjectKey
| scanObjectValue | scanEndObject | scanBeginArray | scanArrayValue
| scanEndArray | scanSkipSpace | scanEnd | scanError.

(** [parseState] has its top at the head. *)
Record scanner : Type := mkScanner
  { step : state; parseState : list parse; err : option error;
    endTop : bool; bytes : Z }.

Definition maxNestingDepth : Z := 10000.

Definition reset : scanner := mkScanner stateBeginValue [] None false 0.

Definition isSpace (c : ascii) : bool :=
  eqc c " " || eqc c TAB || eqc c CR || eqc c LF.

Definition isHex (c : ascii) : bool :=
  isDigit c || ((97 <=? code c) && (code c <=? 102))
  || ((65 <=? code c) && (code c <=? 70)).

(** [strconv.IsPrint] on the runes below 256. *)
Definition IsPrint (c : ascii) : bool :=
  ((32 <=? code c) && (code c <=? 126))
  || ((161 <=? code c) && negb (code c =? 173)).

Definition hex2 (z : Z) : string :=
  String (hexDigit (Z.shiftr z 4)) (str (hexDigit (Z.land z 15))).

(** [quoteChar]: the byte as a rune, between single quotes, escaped as
    [strconv.Quote] escapes it. *)
Definition quoteChar (c : ascii) : string :=
  if eqc c "'" then "'\''"
  else if eqc c dquote then "'" ++ str dquote ++ "'"
  else
    let body :=
      if eqc c backslash then "\\"
      else if IsPrint c then utf8.EncodeRune (code c)
      else if code c =? 7 then "\a"
      else if eqc c BS then "\b"
      else if eqc c FF then "\f"
      else if eqc c LF then "\n"
      else if eqc c CR then "\r"
      else if eqc c TAB then "\t"
      else if code c =? 11 then "\v"
      else if (code c <? 32) || (code c =? 127) then "\x" ++ hex2 (code c)
      else "\u00" ++ hex2 (code c) in
    "'" ++ body ++ "'".

Definition setStep (s : scanner) (st : state) : scanner :=
  mkScanner st (parseState s) (err s) (endTop s) (bytes s).

Definition error_ (s : scanner) (c : ascii) (context : string) : scanner * op :=
  (mkScanner stateError (parseState s)
     (Some (SyntaxError ("invalid character " ++ quoteChar c ++ " " ++ context)
                        (bytes s)))
     (endTop s) (bytes s),
   scanError).

Definition pushParseState (s : scanner) (c : ascii) (newParseState : parse)
  (successState : op) : scanner * op :=
  let s' := mkScanner (step s) (newParseState :: parseState s) (err s)
                      (endTop s) (bytes s) in
  if Z.of_nat (List.length (parseState s')) <=? maxNestingDepth
  then (s', successState)
  else error_ s' c "exceeded max depth".

Definition popParseState (s : scanner) : scanner :=
  match tl (parseState s) with
  | [] => mkScanner stateEndTop [] (err s) true (bytes s)
  | ps => mkScanner stateEndValue ps (err s) (endTop s) (bytes s)
  end.

Definition replaceTop (s : scanner) (p : parse) : scanner :=
  mkScanner (step s) (p :: tl (parseState s)) (err s) (endTop s) (bytes s).

Definition doEndTop (s : scanner) (c : ascii) : scanner * op :=
  if isSpace c then (s, scanEnd)
  else (fst (error_ s c "after top-level value"), scanEnd).

Definition doEndValue (s : scanner) (c : ascii) : scanner * op :=
  match parseState s with
  | [] =>
      doEndTop (mkScanner stateEndTop [] (err s) true (bytes s)) c
  | ps :: _ =>
      if isSpace c then (setStep s stateEndValue, scanSkipSpace)
      else
        match ps with
        | parseObjectKey =>
            if eqc c ":"
            then (setStep (replaceTop s parseObjectValue) stateBeginValue, scanObjectKey)
            else error_ s c "after object key"
        | parseObjectValue =>
            if eqc c ","
            then (setStep (replaceTop s parseObjectKey) stateBeginString, scanObjectValue)
            else if eqc c "}" then (popParseState s, scanEndObject)
            else error_ s c "after object key:value pair"
        | parseArrayValue =>
            if eqc c "," then (setStep s stateBeginValue, scanArrayValue)
            else if eqc c "]" then (popParseState s, scanEndArray)
            else error_ s c "after array element"
        end
  end.

Definition doBeginValue (s : scanner) (c : ascii) : scanner * op :=
  if isSpace c then (s, scanSkipSpace)
  else if eqc c "{" then
    pushParseState (setStep s stateBeginStringOrEmpty) c parseObjectKey scanBeginObject
  else if eqc c "[" then
    pushParseState (setStep s stateBeginValueOrEmpty) c parseArrayValue scanBeginArray
  else if eqc c dquote then (setStep s stateInString, scanBeginLiteral)
  else if eqc c "-" then (setStep s stateNeg, scanBeginLiteral)
  else if eqc c "0" then (setStep s state0, scanBeginLiteral)
  else if eqc c "t" then (setStep s stateT, scanBeginLiteral)
  else if eqc c "f" then (setStep s stateF, scanBeginLiteral)
  else if eqc c "n" then (setStep s stateN, scanBeginLiteral)
  else if (49 <=? code c) && (code c <=? 57) then (setStep s state1, scanBeginLiteral)
  else error_ s c "looking for beginning of value".

Definition doBeginString (s : scanner) (c : ascii) : scanner * op :=
  if isSpace c then (s, scanSkipSpace)
  else if eqc c dquote then (setStep s stateInString, scanBeginLiteral)
  else error_ s c "looking for beginning of object key string".

Definition expect (s : scanner) (c want : ascii) (next : state) (context : string)
  : scanner * op :=
  if eqc c want then (setStep s next, scanContinue) else error_ s c context.

Definition do0 (s : scanner) (c : ascii) : scanner * op :=
  if eqc c "." then (setStep s stateDot, scanContinue)
  else if eqc c "e" || eqc c "E" then (setStep s stateE, scanContinue)
  else doEndValue s c.

Definition doESign (s : scanner) (c : ascii) : scanner * op :=
  if isDigit c then (setStep s stateE0, scanContinue)
  else error_ s c "in exponent of numeric literal".

Definition hexStep (s : scanner) (c : ascii) (next : state) : scanner * op :=
  if isHex c then (setStep s next, scanContinue)
  else error_ s c "in \u hexadecimal character escape".

(** [s.step(s, c)] *)
Definition stepFn (s : scanner) (c : ascii) : scanner * op :=
  match step s with
  | stateBeginValueOrEmpty =>
      if isSpace c then (s, scanSkipSpace)
      else if eqc c "]" then doEndValue s c
      else doBeginValue s c
  | stateBeginValue => doBeginValue s c
  | stateBeginStringOrEmpty =>
      if isSpace c then (s, scanSkipSpace)
      else if eqc c "}" then doEndValue (replaceTop s parseObjectValue) c
      else doBeginString s c
  | stateBeginString => doBeginString s c
  | stateEndValue => doEndValue s c
  | stateEndTop => doEndTop s c
  | stateInString =>
      if eqc c dquote then (setStep s stateEndValue, scanContinue)
      else if eqc c backslash then (setStep s stateInStringEsc, scanContinue)
      else if code c <? 32 then error_ s c "in string literal"
      else (s, scanContinue)
  | stateInStringEsc =>
      if eqc c "b" || eqc c "f" || eqc c "n" || eqc c "r" || eqc c "t"
         || eqc c backslash || eqc c "/" || eqc c dquote
      then (setStep s stateInString, scanContinue)
      else if eqc c "u" then (setStep s stateInStringEscU, scanContinue)
      else error_ s c "in string escape code"
  | stateInStringEscU => hexStep s c stateInStringEscU1
  | stateInStringEscU1 => hexStep s c stateInStringEscU12
  | stateInStringEscU12 => hexStep s c stateInStringEscU123
  | stateInStringEscU123 => hexStep s c stateInString
  | stateNeg =>
      if eqc c "0" then (setStep s state0, scanContinue)
      else if (49 <=? code c) && (code c <=? 57) then (setStep s state1, scanContinue)
      else error_ s c "in numeric literal"
  | state1 =>
      if isDigit c then (setStep s state1, scanContinue) else do0 s c
  | state0 => do0 s c
  | stateDot =>
      if isDigit c then (setStep s stateDot0, scanContinue)
      else error_ s c "after decimal point in numeric literal"
  | stateDot0 =>
      if isDigit c then (s, scanContinue)
      else if eqc c "e" || eqc c "E" then (setStep s stateE, scanContinue)
      else doEndValue s c
  | stateE =>
      if eqc c "+" || eqc c "-" then (setStep s stateESign, scanContinue)
      else doESign s c
  | stateESign => doESign s c
  | stateE0 =>
      if isDigit c then (s, scanContinue) else doEndValue s c
  | stateT => expect s c "r" stateTr "in literal true (expecting 'r')"
  | stateTr => expect s c "u" stateTru "in literal true (expecting 'u')"
  | stateTru => expect s c "e" stateEndValue "in literal true (expecting 'e')"
  | stateF => expect s c "a" stateFa "in literal false (expecting 'a')"
  | stateFa => expect s c "l" stateFal "in literal false (expecting 'l')"
  | stateFal => expect s c "s" stateFals "in literal false (expecting 's')"
  | stateFals => expect s c "e" stateEndValue "in literal false (expecting 'e')"
  | stateN => expect s c "u" stateNu "in literal null (expecting 'u')"
  | stateNu => expect s c "l" stateNul "in literal null (expecting 'l')"
  | stateNul => expect s c "l" stateEndValue "in literal null (expecting 'l')"
  | stateError => (s, scanError)
  end.

Definition count (s : scanner) : scanner :=
  mkScanner (step s) (parseState s) (err s) (endTop s) (bytes s + 1).

(** [s.eof()] *)
Definition eof (s : scanner) : option error :=
  match err s with
  | Some e => Some e
  | None =>
      if endTop s then None
      else
        let s' := fst (stepFn s " ") in
        if endTop s' then None
        else
          match err s' with
          | Some e => Some e
          | None => Some (SyntaxError "unexpected end of JSON input" (bytes s'))
          end
  end.

(** [checkValid]: the error of the first byte that the scanner
    refuses, else the verdict at the end of the input. *)
Fixpoint feed (s : scanner) (data : string) : option error :=
  match data with
  | EmptyString => eof s
  | String c data' =>
      match stepFn (count s) c with
      | (s', scanError) => err s'
      | (s', _) => feed s' data'
      end
  end.

Definition checkValid (data : string) : option error := feed reset data.

(** *** Decoding into a [Request], for an input that [checkValid] passed *)

Fixpoint skipSpace (s : string) : string :=
  match s with
  | String c s' => if isSpace c then skipSpace s' else s
  | EmptyString => s
  end.

(** The text of a string literal after its opening quote, escapes
    untouched, and what follows the closing quote. *)
Fixpoint rawString (s : string) : string * string :=
  match s with
  | EmptyString => (EmptyString, EmptyString)
  | String c s' =>
      if eqc c dquote then (EmptyString, s')
      else if eqc c backslash then
        match s' with
        | String d s'' =>
            let '(r, rest) := rawString s'' in (String c (String d r), rest)
        | EmptyString => (str c, EmptyString)
        end
      else let '(r, rest) := rawString s' in (String c r, rest)
  end.

(** What follows an array or object that has been entered, [depth]
    brackets deep. *)
Fixpoint skipNested (s : string) (depth : nat) (inStr esc : bool) : string :=
  match s with
  | EmptyString => EmptyString
  | String c s' =>
      if inStr then
        if esc then skipNested s' depth true false
        else if eqc c backslash then skipNested s' depth true true
        else if eqc c dquote then skipNested s' depth false false
        else skipNested s' depth true false
      else if eqc c "{" || eqc c "[" then skipNested s' (S depth) false false
      else if eqc c "}" || eqc c "]" then
        match depth with
        | S (S d) => skipNested s' (S d) false false
        | _ => s'
        end
      else if eqc c dquote then skipNested s' depth true false
      else skipNested s' depth false false
  end.

Fixpoint skipScalar (s : string) : string :=
  match s with
  | String c s' =>
      if isSpace c || eqc c "," || eqc c "}" || eqc c "]" then s
      else skipScalar s'
  | EmptyString => s
  end.

(** What follows the value at the head of [s]. *)
Definition skipValue (s : string) : string :=
  match s with
  | String c s' =>
      if eqc c "{" || eqc c "[" then skipNested s' 1 false false
      else if eqc c dquote then snd (rawString s')
      else skipScalar s
  | EmptyString => s
  end.

Definition hexVal (c : ascii) : Z :=
  if isDigit c then code c - 48
  else if 97 <=? code c then code c - 87
  else code c - 55.

(** [getu4]: the number of a [\uXXXX] escape at the head of [s], or -1. *)
Definition getu4 (s : string) : Z :=
  match s with
  | String b (String u (String h1 (String h2 (String h3 (String h4 _))))) =>
      if eqc b backslash && eqc u "u" && isHex h1 && isHex h2 && isHex h3 && isHex h4
      then ((hexVal h1 * 16 + hexVal h2) * 16 + hexVal h3) * 16 + hexVal h4
      else -1
  | _ => -1
  end.

Definition escaped (d : ascii) : ascii :=
  if eqc d "b" then BS else if eqc d "f" then FF else if eqc d "n" then LF
  else if eqc d "r" then CR else if eqc d "t" then TAB else d.

(** [unquote] on the text between the quotes: escapes are replaced, a
    pair of surrogate escapes gives one rune, a lone surrogate and a
    byte sequence that is not UTF-8 give U+FFFD.  Each turn takes at
    least one byte, so the length of the text is fuel enough. *)
Fixpoint unquote' (fuel : nat) (s : string) : string :=
  match fuel with
  | O => EmptyString
  | S fuel' =>
      match s with
      | EmptyString => EmptyString
      | String c s' =>
          if eqc c backslash then
            match s' with
            | EmptyString => EmptyString
            | String d s'' =>
                if eqc d "u" then
                  let rr := getu4 s in
                  if (55296 <=? rr) && (rr <? 57344) then
                    let rr1 := getu4 (drop 6 s) in
                    if (rr <? 56320) && (56320 <=? rr1) && (rr1 <? 57344) then
                      utf8.EncodeRune
                        (Z.shiftl (rr - 55296) 10 + (rr1 - 56320) + 65536)
                      ++ unquote' fuel' (drop 12 s)
                    else utf8.RuneError ++ unquote' fuel' (drop 6 s)
                  else utf8.EncodeRune rr ++ unquote' fuel' (drop 6 s)
                else String (escaped d) (unquote' fuel' s'')
            end
          else if code c <? 128 then String c (unquote' fuel' s')
          else
            match utf8.width s with
            | O => utf8.RuneError ++ unquote' fuel' s'
            | w => take w s ++ unquote' fuel' (drop w s)
            end
      end
  end.

Definition unquote (s : string) : string := unquote' (String.length s) s.

Definition toLower (c : ascii) : ascii :=
  if (65 <=? code c) && (code c <=? 90) then chr (code c + 32) else c.

Fixpoint EqualFold (s t : string) : bool :=
  match s, t with
  | EmptyString, EmptyString => true
  | String a s', String b t' => eqc (toLower a) (toLower b) && EqualFold s' t'
  | _, _ => false
  end.

Inductive field : Type := fieldType | fieldIndex.

Definition fieldName (f : field) : string :=
  match f with fieldType => "Type" | fieldIndex => "Index" end.

(** The field of [Request] that a key names: the names are compared
    without regard to the case of letters. *)
Definition findField (key : string) : option field :=
  if EqualFold key "Type" then Some fieldType
  else if EqualFold key "Index" then Some fieldIndex
  else None.

Definition setField (f : field) (v : string) (r : Request) : Request :=
  match f with
  | fieldType => mkRequest v (Index r)
  | fieldIndex => mkRequest (Type_ r) v
  end.

(** The first error is the one kept. *)
Definition saveError (saved : option error) (e : error) : option error :=
  match saved with
  | Some _ => saved
  | None => Some e
  end.

Definition kind (c : ascii) : string :=
  if eqc c "{" then "object" else if eqc c "[" then "array"
  else if eqc c dquote then "string"
  else if eqc c "t" || eqc c "f" then "bool" else "number".

(** Store the value at the head of [s] into the field that the key
    named: a string is stored, [null] changes nothing, any other value
    is a type error. *)
Definition store (f : option field) (s : string) (r : Request) (saved : option error)
  : Request * option error :=
  match f, s with
  | Some f, String c s' =>
      if eqc c dquote then (setField f (unquote (fst (rawString s'))) r, saved)
      else if eqc c "n" then (r, saved)
      else (r, saveError saved (UnmarshalTypeError (kind c) "Request" (fieldName f) "string"))
  | _, _ => (r, saved)
  end.

(** The members of an object, after its opening brace.  Each turn
    takes at least one byte. *)
Fixpoint members (fuel : nat) (s : string) (r : Request) (saved : option error)
  : Request * option error :=
  match fuel with
  | O => (r, saved)
  | S fuel' =>
      match skipSpace s with
      | EmptyString => (r, saved)
      | String c s' =>
          if eqc c "," then members fuel' s' r saved
          else if eqc c dquote then
            let '(rawKey, afterKey) := rawString s' in
            let value := skipSpace (drop 1 (skipSpace afterKey)) in
            let '(r', saved') := store (findField (unquote rawKey)) value r saved in
            members fuel' (skipValue value) r' saved'
          else (r, saved)
      end
  end.

(** [json.Unmarshal(data, &request)] *)
Definition Unmarshal (data : string) (request : Request) : Request * option error :=
  match checkValid data with
  | Some e => (request, Some e)
  | None =>
      match skipSpace data with
      | EmptyString => (request, None)
      | String c s' =>
          if eqc c "{" then members (String.length s') s' request None
          else if eqc c "n" then (request, None)
          else (request, Some (UnmarshalTypeError (kind c) "" "" "main.Request"))
      end
  end.

(** *** Encoding a [Response] *)

Definition htmlSafe (c : ascii) : bool :=
  (32 <=? code c) && (code c <? 128)
  && negb (eqc c dquote || eqc c backslash || eqc c "<" || eqc c ">" || eqc c "&").

Definition LineSeparator : string :=
  String (chr 226) (String (chr 128) (str (chr 168))).
Definition ParagraphSeparator : string :=
  String (chr 226) (String (chr 128) (str (chr 169))).

(** The text of a string between its quotes. *)
Fixpoint appendString (fuel : nat) (src : string) : string :=
  match fuel with
  | O => EmptyString
  | S fuel' =>
      match src with
      | EmptyString => EmptyString
      | String c src' =>
          if code c <? 128 then
            (if htmlSafe c then str c
             else if eqc c backslash || eqc c dquote then String backslash (str c)
             else if eqc c BS then "\b"
             else if eqc c FF then "\f"
             else if eqc c LF then "\n"
             else if eqc c CR then "\r"
             else if eqc c TAB then "\t"
             else "\u00" ++ hex2 (code c))
            ++ appendString fuel' src'
          else
            match utf8.width src with
            | O => String backslash "ufffd" ++ appendString fuel' src'
            | w =>
                (if String.eqb (take w src) LineSeparator then String backslash "u2028"
                 else if String.eqb (take w src) ParagraphSeparator then String backslash "u2029"
                 else take w src)
                ++ appendString fuel' (drop w src)
            end
      end
  end.

Definition quoted (s : string) : string :=
  str dquote ++ appendString (String.length s) s ++ str dquote.

(** [json.Marshal] of a [Response]. *)
Definition Marshal (v : Response) : string :=
  "{" ++ quoted "Message" ++ ":" ++ quoted (Message v) ++ ","
      ++ quoted "Error" ++ ":" ++ quoted (Error v) ++ "}".

End json.

(** ** The program *)

(** [dateFormat] is ["Mon Jan 2 15:04:05 2006"]; these are its chunks. *)
Definition dateFormat : time.Layout :=
  [("", time.stdWeekDay); (" ", time.stdMonth); (" ", time.stdDay);
   (" ", time.stdHour); (":", time.stdZeroMinute); (":", time.stdZeroSecond);
   (" ", time.stdLongYear)].

Definition indexerBinPath : string := "/usr/bin/indexer".
Definition configPath : string := "/etc/sphinxsearch/sphinx.conf".
Definition searchdLogPath : string := "/var/log/sphinxsearch/searchd.log".

(** The pattern of a log line's prefix: an opening bracket; group 1, the
    longest run of bytes other than the closing bracket that lets the rest
    match; a period; group 2, three digits; a white-space byte; group 3,
    four digits; a closing bracket. *)
Definition prefixPattern : list regexp.Regexp :=
  [regexp.lit "[";
   regexp.Group 1 (regexp.Star (fun c => negb (eqc c "]")));
   regexp.lit ".";
   regexp.Group 2 (regexp.cat [regexp.digit; regexp.digit; regexp.digit]);
   regexp.space;
   regexp.Group 3 (regexp.cat [regexp.digit; regexp.digit; regexp.digit; regexp.digit]);
   regexp.lit "]"].

Definition searchdLogLinePrefix : regexp.Regexp := regexp.cat prefixPattern.

Definition baseDate : time.Time :=
  fst (time.Parse dateFormat "Fri Sep 7 10:00:00 2012").

Definition atoi (value : string) : Z := fst (strconv.Atoi value).

(** [date.Add] returns the later instant; the statement drops it, and
    [date] is returned as [time.Parse] gave it. *)
Definition timeFromLog (line : string) : time.Time * option error :=
  let match_ := regexp.FindStringSubmatch searchdLogLinePrefix line in
  if (1 <? List.length match_)%nat then
    let dateStr := nth 1 match_ "" in
    let milliseconds := nth 2 match_ "" in
    let year := nth 3 match_ "" in
    let '(date, _) := time.Parse dateFormat (dateStr ++ " " ++ year) in
    let _ := time.Add date (wrap64 (time.Millisecond * atoi milliseconds)) in
    (date, None)
  else (time.zero, Some (errors_New "Could not match a timestamp prefix")).

Definition readLines (fs : os.FS) (file : os.File) : list string * option error :=
  let '(lines, tooLong) := bufio.tokens (os.rest fs file) EmptyString 0 in
  (lines, if tooLong then Some bufio.ErrTooLong else None).

(** [int64(-math.Min(1024, math.Max(float64(fileLength - 1), 0)))].  The
    conversion to [float64] is monotone and exact below 2^53, and 1024 is
    a [float64], so the minimum is the one of the integers. *)
Definition tailSeek (fileLength : Z) : Z :=
  - Z.min 1024 (Z.max (fileLength - 1) 0).

Definition getLastTimestamp (fs : os.FS) (filePath : string)
  : option error * time.Time :=
  match os.Open fs filePath with
  | inl err => (Some err, time.zero)
  | inr file =>
      match os.Stat fs file with
      | inl err => (Some err, time.zero)
      | inr fileLength =>
          let '(file, _, _) := os.Seek fs file (tailSeek fileLength) 2 in
          let '(lines, _) := readLines fs file in
          match lines with
          | [] => (None, baseDate)
          | _ =>
              let last := nth (List.length lines - 1) lines "" in
              match timeFromLog last with
              | (_, Some err) => (Some err, time.zero)
              | (lastDate, None) => (None, lastDate)
              end
          end
      end
  end.

(** What one turn of the polling loop does next. *)
Inductive flow : Type :=
| Continue
| Break
| Return (err : error).

(** The body of the loop once the line is read. *)
Definition inspect (re : regexp.Regexp) (threshold : time.Time) (line : string) : flow :=
  if String.eqb line "" then Continue
  else
    let match_ := regexp.FindStringSubmatch re line in
    if (1 <? List.length match_)%nat then
      match timeFromLog line with
      | (_, Some err) => Return err
      | (date, None) => if time.After date threshold then Break else Continue
      end
    else Continue.

(** The outcome of a poll: the error returned, and for every turn of the
    loop the read offset it started from and the line it took. *)
Record Poll : Type := mkPoll
  { poll_err : option error; poll_turns : list (Z * string) }.

Definition turn (t : Z * string) (p : Poll) : Poll :=
  mkPoll (poll_err p) (t :: poll_turns p).

(** [for loop := 0; loop < 10; loop++], with [n] turns left.  The other
    process appends the head of [appends] to the log before each turn. *)
Fixpoint pollLoop (n : nat) (re : regexp.Regexp) (threshold : time.Time)
  (fs : os.FS) (file : os.File) (appends : list string) : Poll :=
  match n with
  | O => mkPoll None []
  | S n' =>
      let fs := os.append fs (os.path file) (hd "" appends) in
      let '(file, _, _) := os.Seek fs file 0 1 in
      let start := os.offset file in
      let '(line, file) := bufio.ScanText fs file in
      match inspect re threshold line with
      | Return err => mkPoll (Some err) [(start, line)]
      | Break => mkPoll None [(start, line)]
      | Continue =>
          turn (start, line) (pollLoop n' re threshold fs file (tl appends))
      end
  end.

(** The pattern that [waitForRotation] compiles: the pattern of the
    prefix, any run of bytes other than the line feed, and [expression].
    [expression] is part of the pattern's text.  The program passes a
    text without metacharacters, which [regexp] reads as itself, and so
    does the model: [rotationPattern expression] is the pattern that the
    program compiles when [expression] is such a text ([plainText],
    below), and is not for an expression that holds metacharacters. *)
Definition rotationPattern (expression : string) : regexp.Regexp :=
  regexp.cat (prefixPattern ++ [regexp.dotStar; regexp.literal expression])%list.

(** The file is opened and positioned once, before the loop. *)
Definition waitForRotation (fs : os.FS) (appends : list string)
  (filePath expression : string) (threshold : time.Time) : Poll :=
  match os.Open fs filePath with
  | inl err => mkPoll (Some err) []
  | inr file =>
      match os.Stat fs file with
      | inl err => mkPoll (Some err) []
      | inr fileLength =>
          match os.Seek fs file (tailSeek fileLength) 2 with
          | (_, _, Some err) => mkPoll (Some err) []
          | (file, _, None) =>
              let re := rotationPattern expression in
              pollLoop 10 re threshold fs file appends
          end
      end
  end.

(** ** Package [os/exec] and the world around a rebuild

    The indexer is a process outside the program.  For a command, [run]
    gives the error of [cmd.Run] and the text that the search daemon's log
    has gained when [Run] returns; [appends] is what the log gains
    afterwards, before each turn of the poll. *)

Module exec.

Record Cmd : Type := Command { Path : string; Args : list string }.

End exec.

Record World : Type := mkWorld
  { fs : os.FS;
    run : exec.Cmd -> option error * string;
    appends : list string }.

Definition marker : string := "rotating index: all indexes done".

(** [err = cmd.Run()] is followed by no test of [err]. *)
Definition reindex (w : World) (indexName : string) : option error :=
  match getLastTimestamp (fs w) searchdLogPath with
  | (Some err, _) => Some err
  | (None, lastDate) =>
      let cmd := exec.Command indexerBinPath
                   ["--config " ++ configPath; "--rotate"; "--quiet"; indexName] in
      let '(err, written) := run w cmd in
      let fs' := os.append (fs w) searchdLogPath written in
      poll_err (waitForRotation fs' (appends w) searchdLogPath marker lastDate)
  end.

(** [reindex] again, for a file system that the run of the indexer may
    leave in any state: [run] gives the error of [cmd.Run] and the file
    system as it is when [Run] returns, so that the log may have been
    removed, replaced or made unreadable in between. *)
Definition reindexOn (fs : os.FS) (run : exec.Cmd -> option error * os.FS)
  (appends : list string) (indexName : string) : option error :=
  match getLastTimestamp fs searchdLogPath with
  | (Some err, _) => Some err
  | (None, lastDate) =>
      let cmd := exec.Command indexerBinPath
                   ["--config " ++ configPath; "--rotate"; "--quiet"; indexName] in
      let '(err, fs') := run cmd in
      poll_err (waitForRotation fs' appends searchdLogPath marker lastDate)
  end.

(** ** Package [net]: one connection

    [incoming] is what the peer has sent when the handler reads, and
    [read_err] the error of that read.  [Read] copies into the buffer as
    many bytes as fit and leaves the rest of the buffer as it was. *)

Module net.

Record Conn : Type := mkConn { incoming : string; read_err : option error }.

Definition Read (conn : Conn) (buf : string) : string * Z * option error :=
  match read_err conn with
  | Some e => (buf, 0, Some e)
  | None =>
      let got := take (String.length buf) (incoming conn) in
      (got ++ drop (String.length got) buf, len got, None)
  end.

End net.

Definition toJson (v : Response) : string := json.Marshal v.

(** What a handler leaves behind: the messages written to the
    connection, in order, and the error returned. *)
Record Handled : Type := mkHandled
  { written : list string; returned : option error }.

(** [buf] is handed to [json.Unmarshal] whole, whatever the number of
    bytes that [Read] reported.  The keep-alive settings only print a
    message when they fail, and the deferred [conn.Close] follows every
    return; neither is part of the model. *)
Definition handleRequest (w : World) (conn : net.Conn) : Handled :=
  let buf := repeat_byte NUL 1024 in
  let '(buf, _, err) := net.Read conn buf in
  match err with
  | Some err => mkHandled [] (Some err)
  | None =>
      let request := mkRequest "" "" in
      let '(request, err) := json.Unmarshal buf request in
      match err with
      | Some err =>
          mkHandled
            [toJson (mkResponse "" ("Could not decode the request JSON: " ++ errorText err))]
            (Some err)
      | None =>
          if String.eqb (Type_ request) "ping" then
            mkHandled [toJson (mkResponse "pong" "")] err
          else if negb (String.eqb (Type_ request) "reindex") then
            mkHandled [toJson (mkResponse "" ("Unknown request: " ++ Type_ request))] err
          else
            match reindex w (Index request) with
            | Some err =>
                mkHandled
                  [toJson (mkResponse "" ("Reindexing error: " ++ errorText err))]
                  (Some err)
            | None => mkHandled [toJson (mkResponse "OK" "")] None
            end
      end
  end.

(** ** The keep-alive settings of a connection

    A connection is a TCP connection with its socket, or one of another
    type.  The socket holds the keep-alive switch and its integer
    options, by level and name.  [Kernel] tells which of the calls fail:
    [SetKeepAlive], [File], and [SetsockoptInt] for a level, a name and a
    value; a call that fails changes nothing.  The descriptor that [File]
    returns is a duplicate that refers to the same socket.
    [SetsockoptInt] hands the kernel [int32(value)]. *)

Module syscall.

Definition IPPROTO_TCP : Z := 6.
Definition TCP_KEEPIDLE : Z := 4.
Definition TCP_KEEPINTVL : Z := 5.
Definition TCP_KEEPCNT : Z := 6.

Record Socket : Type := mkSocket
  { keepAlive : bool; option_ : Z -> Z -> option Z }.

Record Kernel : Type := mkKernel
  { SetKeepAlive_err : option error;
    File_err : option error;
    Setsockopt_err : Z -> Z -> Z -> option error }.

Definition SetsockoptInt (k : Kernel) (s : Socket) (level opt value : Z)
  : Socket * option error :=
  let n := wrap32 value in
  match Setsockopt_err k level opt n with
  | Some e => (s, Some e)
  | None =>
      (mkSocket (keepAlive s)
         (fun l o => if (l =? level) && (o =? opt) then Some n else option_ s l o),
       None)
  end.

End syscall.

Inductive Connection : Type :=
| TCPConn (s : syscall.Socket)
| OtherConn (typeName : string).

Definition setKeepAlive (k : syscall.Kernel) (connection : Connection)
  (afterIdleSecs intervalSecs maxFails : Z) : Connection * option error :=
  match connection with
  | OtherConn typeName =>
      (connection, Some (errors_New ("Unsupported connection type: " ++ typeName)))
  | TCPConn tcp =>
      match syscall.SetKeepAlive_err k with
      | Some err => (connection, Some err)
      | None =>
          let tcp := syscall.mkSocket true (syscall.option_ tcp) in
          match syscall.File_err k with
          | Some err => (TCPConn tcp, Some err)
          | None =>
              match syscall.SetsockoptInt k tcp syscall.IPPROTO_TCP
                      syscall.TCP_KEEPIDLE afterIdleSecs with
              | (tcp, Some err) => (TCPConn tcp, Some err)
              | (tcp, None) =>
                  match syscall.SetsockoptInt k tcp syscall.IPPROTO_TCP
                          syscall.TCP_KEEPINTVL intervalSecs with
                  | (tcp, Some err) => (TCPConn tcp, Some err)
                  | (tcp, None) =>
                      let '(tcp, err) :=
                        syscall.SetsockoptInt k tcp syscall.IPPROTO_TCP
                          syscall.TCP_KEEPCNT maxFails in
                      (TCPConn tcp, err)
                  end
              end
          end
      end
  end.

(** ** Sample inputs *)

Definition q : string := str dquote.

(** The request [{"Type":"<kind>"}] as a client would send it. *)
Definition typeOnly (kind : string) : string :=
  "{" ++ q ++ "Type" ++ q ++ ":" ++ q ++ kind ++ q ++ "}".

(** A payload filled up with spaces to the size of the read buffer. *)
Definition padded (payload : string) : string :=
  payload ++ repeat_byte " " (1024 - String.length payload).

(** A file system whose every path holds [content]. *)
Definition logWith (content : string) : os.FS :=
  fun _ => os.mkNode None None content.

Definition line (s : string) : string := s ++ str LF.

Definition noIndexer : exec.Cmd -> option error * string :=
  fun _ => (Some (ExecError "fork/exec /usr/bin/indexer: no such file or directory"), "").

(** ** Notions used to state the properties *)

(** The test that ends the poll: the line is not empty, the pattern
    matches it and its instant is after the threshold. *)
Definition stops (re : regexp.Regexp) (threshold : time.Time) (l : string) : bool :=
  negb (String.eqb l "")
  && (1 <? List.length (regexp.FindStringSubmatch re l))%nat
  && time.After (fst (timeFromLog l)) threshold.

(** The bytes of the log at turn [i] of a poll that started on [data]. *)
Fixpoint grown (data : string) (appends : list string) (i : nat) : string :=
  match i with
  | O => data ++ hd "" appends
  | S i' => grown (data ++ hd "" appends) (tl appends) i'
  end.

(** The line that a new scanner takes from [data] at offset [start], and
    the number of bytes it reads for it. *)
Definition firstLine (data : string) (start : Z) : string :=
  fst (fst (bufio.firstScan bufio.bufSizes (drop (Z.to_nat start) data))).

Definition taken (data : string) (start : Z) : Z :=
  Z.of_nat (snd (fst (bufio.firstScan bufio.bufSizes (drop (Z.to_nat start) data)))).

(** The offset of the start of the tail window in a file of [n] bytes,
    as the specification words it. *)
Definition spec_windowStart (n : Z) : Z := Z.max 0 (n - 1024).

(** The most recent complete line of the tail window, as the
    specification words what the poller inspects. *)
Definition spec_lastLine (data : string) : string :=
  let window := drop (Z.to_nat (spec_windowStart (len data))) data in
  last (fst (bufio.tokens window EmptyString 0)) "".

(** The date and time that a line carries: the fields that [time.Parse]
    reads from the first and third groups of the prefix, when the line
    has the prefix and the text is a date. *)
Definition stamp (l : string) : option time.fields :=
  let m := regexp.FindStringSubmatch searchdLogLinePrefix l in
  if (1 <? List.length m)%nat then
    match time.chunks dateFormat time.noFields (nth 1 m "" ++ " " ++ nth 3 m "") with
    | inr (f, EmptyString) =>
        let f := time.settle f in
        if (time.f_day f <? 1)
           || (time.daysIn (time.f_month f) (time.f_year f) <? time.f_day f)
        then None else Some f
    | _ => None
    end
  else None.

(** A date and time later than September 7, 2012, 10:00:00. *)
Definition laterThanBase (f : time.fields) : Prop :=
  2012 < time.f_year f
  \/ (time.f_year f = 2012
      /\ (9 < time.f_month f
          \/ (time.f_month f = 9
              /\ (7 < time.f_day f
                  \/ (time.f_day f = 7
                      /\ (10 < time.f_hour f
                          \/ (time.f_hour f = 10
                              /\ (0 < time.f_min f
                                  \/ (time.f_min f = 0 /\ 0 < time.f_sec f))))))))).

(** The ranges that [time.Parse] keeps the fields in. *)
Definition inRange (f : time.fields) : Prop :=
  (time.f_month f = -1 \/ 1 <= time.f_month f <= 12)
  /\ 0 <= time.f_hour f < 24
  /\ 0 <= time.f_min f < 60
  /\ 0 <= time.f_sec f < 60.

(** A text that [regexp] reads as itself: ASCII bytes, none of them a
    metacharacter of the pattern syntax.  For such an [expression] the
    pattern that the program compiles is [rotationPattern expression]. *)
Definition metaByte (c : ascii) : bool :=
  eqc c backslash || eqc c "." || eqc c "+" || eqc c "*" || eqc c "?"
  || eqc c "(" || eqc c ")" || eqc c "|" || eqc c "[" || eqc c "]"
  || eqc c "{" || eqc c "}" || eqc c "^" || eqc c "$".

Fixpoint plainText (s : string) : bool :=
  match s with
  | EmptyString => true
  | String c s' => (code c <? 128) && negb (metaByte c) && plainText s'
  end.

(** The shape of a timestamp prefix: a bracket, a text without a closing
    bracket, a period, three digits, a white-space byte, four digits and
    the closing bracket. *)
Definition whiteSpace (c : ascii) : bool :=
  eqc c TAB || eqc c LF || eqc c FF || eqc c CR || eqc c " ".

Definition stampText (s : string) : Prop :=
  exists d m1 m2 m3 sp y1 y2 y3 y4,
    s = "[" ++ d ++ "."
        ++ String m1 (String m2 (String m3 (String sp
             (String y1 (String y2 (String y3 (String y4 "]")))))))
    /\ contains_byte "]" d = false
    /\ isDigit m1 = true /\ isDigit m2 = true /\ isDigit m3 = true
    /\ whiteSpace sp = true
    /\ isDigit y1 = true /\ isDigit y2 = true /\ isDigit y3 = true
    /\ isDigit y4 = true.

(** The text of a string inside a JSON string literal, as [toJson]
    writes it. *)
Definition escapeJSON (s : string) : string :=
  json.appendString (String.length s) s.

(** A text that JSON writes as it is: ASCII bytes from the space on,
    without the double quote, the backslash and the bytes that
    [json.Marshal] escapes for HTML. *)
Fixpoint safeText (s : string) : bool :=
  match s with
  | EmptyString => true
  | String c s' => json.htmlSafe c && safeText s'
  end.

Fixpoint asciiText (s : string) : bool :=
  match s with
  | EmptyString => true
  | String c s' => (code c <? 128) && asciiText s'
  end.

(** Lines put together, each with its line feed. *)
Definition unlines (ls : list string) : string :=
  fold_right (fun l s => line l ++ s) "" ls.

(** A kernel that refuses nothing, and a socket with nothing set. *)
Definition willingKernel : syscall.Kernel :=
  syscall.mkKernel None None (fun _ _ _ => None).

Definition freshSocket : syscall.Socket :=
  syscall.mkSocket false (fun _ _ => None).

(** A scanner in its error state has recorded the error. *)
Definition errorKept (s : json.scanner) : Prop :=
  json.step s = json.stateError -> json.err s <> None.

(** A continuation that accepts wherever another one does. *)
Definition weaker (k1 k2 : regexp.Cont) : Prop :=
  forall s pos c, k1 s pos c <> None -> k2 s pos c <> None.

(** * Properties *)

(** ** Strings *)

Lemma append_empty_r (s : string) : s ++ "" = s.
Proof. induction s as [| a s IH]; simpl; [reflexivity | now rewrite IH]. Qed.

Lemma append_assoc (s t u : string) : (s ++ t) ++ u = s ++ (t ++ u).
Proof. induction s as [| a s IH]; simpl; [reflexivity | now rewrite IH]. Qed.

Lemma length_append (s t : string) :
  String.length (s ++ t) = (String.length s + String.length t)%nat.
Proof. induction s as [| a s IH]; simpl; [reflexivity | now rewrite IH]. Qed.

Lemma drop_append (s t : string) : drop (String.length s) (s ++ t) = t.
Proof. induction s as [| a s IH]; simpl; [destruct t; reflexivity | exact IH]. Qed.

Lemma take_all (n : nat) (s : string) : (String.length s <= n)%nat -> take n s = s.
Proof.
  revert s. induction n as [| n IH]; intros [| a s]; simpl; intros H; auto; try lia.
  rewrite IH by lia. reflexivity.
Qed.

Lemma drop_all (n : nat) (s : string) : (String.length s <= n)%nat -> drop n s = "".
Proof.
  revert s. induction n as [| n IH]; intros [| a s]; simpl; intros H; auto; try lia.
  apply IH. lia.
Qed.

Lemma length_drop (n : nat) (s : string) :
  String.length (drop n s) = (String.length s - n)%nat.
Proof.
  revert s. induction n as [| n IH]; intros [| a s]; simpl; auto.
Qed.

(** ** The timestamp extractor *)

Lemma Parse_error_zero (layout : time.Layout) (value : string) :
  snd (time.Parse layout value) <> None ->
  fst (time.Parse layout value) = time.zero.
Proof.
  unfold time.Parse.
  destruct (time.chunks layout time.noFields value) as [e | [f rest]]; simpl; auto.
  destruct rest; simpl; auto.
  destruct (_ || _); simpl; auto.
  intros H; contradiction H; reflexivity.
Qed.

(** X15: the text of the second group, the milliseconds, has no part in
    the result: lines whose first and third groups agree get one instant. *)
Lemma timeFromLog_ignores_milliseconds (l1 l2 : string) :
  let m1 := regexp.FindStringSubmatch searchdLogLinePrefix l1 in
  let m2 := regexp.FindStringSubmatch searchdLogLinePrefix l2 in
  (1 < List.length m1)%nat -> (1 < List.length m2)%nat ->
  nth 1 m1 "" = nth 1 m2 "" -> nth 3 m1 "" = nth 3 m2 "" ->
  timeFromLog l1 = timeFromLog l2.
Proof.
  intros m1 m2 H1 H2 Hd Hy. unfold timeFromLog.
  fold m1; fold m2.
  apply Nat.ltb_lt in H1, H2. rewrite H1, H2, Hd, Hy.
  reflexivity.
Qed.

(** C1 (as the code behaves): two lines of one second, the first with
    millisecond field 500 and the second with 100, are given the same
    instant, so the first is not after the second.  The sum that [Add]
    returns is the later instant, but it is not the value returned. *)
Theorem timeFromLog_drops_milliseconds :
  let first := "[Mon Jan 2 15:04:05.500 2012] rotating index: all indexes done" in
  let second := "[Mon Jan 2 15:04:05.100 2012] rotating index: all indexes done" in
  timeFromLog first = (time.Date 2012 1 2 15 4 5 0, None)
  /\ timeFromLog second = (time.Date 2012 1 2 15 4 5 0, None)
  /\ time.After (fst (timeFromLog first)) (fst (timeFromLog second)) = false
  /\ time.After (time.Add (fst (timeFromLog first)) (time.Millisecond * atoi "500"))
                (time.Add (fst (timeFromLog second)) (time.Millisecond * atoi "100"))
     = true.
Proof.
  vm_compute. repeat split; reflexivity.
Qed.

(** C10: a line that carries the bracketed prefix but whose date text
    [time.Parse] refuses still yields a nil error, with the zero instant. *)
Theorem timeFromLog_unparseable_date_is_zero (l : string) :
  let m := regexp.FindStringSubmatch searchdLogLinePrefix l in
  (1 < List.length m)%nat ->
  snd (time.Parse dateFormat (nth 1 m "" ++ " " ++ nth 3 m "")) <> None ->
  timeFromLog l = (time.zero, None).
Proof.
  intros m Hm Herr. unfold timeFromLog. fold m.
  apply Nat.ltb_lt in Hm. rewrite Hm.
  pose proof (Parse_error_zero _ _ Herr) as Hz.
  destruct (time.Parse dateFormat (nth 1 m "" ++ " " ++ nth 3 m "")) as [date e].
  simpl in Hz. subst date. reflexivity.
Qed.

Lemma timeFromLog_unparseable_date_is_zero_witness :
  timeFromLog "[garbage.123 2012] rotating index: all indexes done" = (time.zero, None).
Proof.
  apply (timeFromLog_unparseable_date_is_zero
           "[garbage.123 2012] rotating index: all indexes done").
  - vm_compute. lia.
  - vm_compute. discriminate.
Defined.

(** ** The matcher *)

Section Matcher.

Import regexp.

Lemma star_mono (p : ascii -> bool) (s : string) :
  forall pos c k1 k2, weaker k1 k2 ->
    star p s pos c k1 <> None -> star p s pos c k2 <> None.
Proof.
  induction s as [| a s IH]; simpl; intros pos c k1 k2 Hk H.
  - apply Hk, H.
  - destruct (p a); [| apply Hk, H].
    destruct (star p s (S pos) c k1) eqn:E1.
    + assert (E2 : star p s (S pos) c k2 <> None)
        by (apply (IH _ _ k1 k2 Hk); congruence).
      destruct (star p s (S pos) c k2); congruence.
    + destruct (star p s (S pos) c k2); [discriminate | apply Hk, H].
Qed.

Lemma run_mono (r : Regexp) :
  forall s pos c k1 k2, weaker k1 k2 ->
    run r s pos c k1 <> None -> run r s pos c k2 <> None.
Proof.
  induction r as [p | p | r1 IH1 r2 IH2 | i r IH |]; simpl; intros s pos c k1 k2 Hk H.
  - destruct s as [| a s]; [exact H |]. destruct (p a); [apply Hk, H | exact H].
  - eapply star_mono; eauto.
  - eapply IH1; [| exact H]. intros s' pos' c'. apply IH2, Hk.
  - eapply IH; [| exact H]. intros s' pos' c'. apply Hk.
  - apply Hk, H.
Qed.

(** Where a pattern followed by more matches, the pattern matches. *)
Lemma cat_app_matches (P Q : list Regexp) :
  forall s pos c,
    run (cat (P ++ Q)) s pos c accept <> None -> run (cat P) s pos c accept <> None.
Proof.
  induction P as [| a P IH]; intros s pos c H.
  - simpl. discriminate.
  - simpl in *. eapply run_mono; [| exact H].
    intros s' pos' c'. apply IH.
Qed.

Lemma find_eq (r : Regexp) (s : string) (pos : nat) :
  find r s pos =
  match run r s pos [] accept with
  | Some (e, c) => Some (pos, e, c)
  | None =>
      match s with
      | String _ s' => find r s' (S pos)
      | EmptyString => None
      end
  end.
Proof. destruct s; reflexivity. Qed.

Lemma find_app (P Q : list Regexp) (s : string) :
  forall pos, find (cat (P ++ Q)) s pos <> None -> find (cat P) s pos <> None.
Proof.
  induction s as [| a s IH]; intros pos;
    rewrite (find_eq (cat (P ++ Q)) _ pos), (find_eq (cat P) _ pos);
    pose proof (cat_app_matches P Q) as HP.
  - specialize (HP EmptyString pos []).
    destruct (run (cat (P ++ Q)) EmptyString pos [] accept) as [[e c] |];
      [| congruence].
    destruct (run (cat P) EmptyString pos [] accept) as [[e' c'] |];
      [discriminate | intros _; exfalso; apply HP; [discriminate | reflexivity]].
  - specialize (HP (String a s) pos []).
    destruct (run (cat (P ++ Q)) (String a s) pos [] accept) as [[e c] |].
    + destruct (run (cat P) (String a s) pos [] accept) as [[e' c'] |];
        [discriminate | intros _; exfalso; apply HP; [discriminate | reflexivity]].
    + destruct (run (cat P) (String a s) pos [] accept) as [[e' c'] |];
        [discriminate | apply IH].
Qed.

Lemma FindStringSubmatch_length (r : Regexp) (s : string) :
  List.length (FindStringSubmatch r s) =
  match find r s 0 with
  | Some _ => S (NumSubexp r)
  | None => O
  end.
Proof.
  unfold FindStringSubmatch.
  destruct (find r s 0) as [[[b e] c] |]; simpl; [| reflexivity].
  now rewrite length_map, length_seq.
Qed.

End Matcher.

(** A line that the rotation pattern matches carries the prefix. *)
Lemma rotation_match_has_prefix (expression l : string) :
  (1 <? List.length (regexp.FindStringSubmatch (rotationPattern expression) l))%nat = true ->
  (1 <? List.length (regexp.FindStringSubmatch searchdLogLinePrefix l))%nat = true.
Proof.
  rewrite !FindStringSubmatch_length. intros H.
  assert (Hf : regexp.find (rotationPattern expression) l 0 <> None).
  { destruct (regexp.find (rotationPattern expression) l 0); [discriminate |].
    discriminate H. }
  apply find_app in Hf. fold searchdLogLinePrefix in Hf.
  destruct (regexp.find searchdLogLinePrefix l 0); [reflexivity | contradiction].
Qed.

(** [timeFromLog] fails on the lines that lack the prefix, and on no
    other line. *)
Lemma timeFromLog_error_iff (l : string) :
  snd (timeFromLog l) <> None <->
  (1 <? List.length (regexp.FindStringSubmatch searchdLogLinePrefix l))%nat = false.
Proof.
  unfold timeFromLog.
  destruct (1 <? List.length (regexp.FindStringSubmatch searchdLogLinePrefix l))%nat.
  - destruct (time.Parse _ _); simpl. split; [intros H; now contradiction H | discriminate].
  - simpl. split; [reflexivity | discriminate].
Qed.

(** The timestamp of a line is asked for only after the rotation pattern
    has matched it, and then the extraction cannot fail: the loop never
    returns an error. *)
Lemma inspect_never_returns (expression : string) (threshold : time.Time) (l : string) :
  forall err, inspect (rotationPattern expression) threshold l <> Return err.
Proof.
  intros err. unfold inspect.
  destruct (String.eqb l ""); [discriminate |].
  destruct (1 <? _)%nat eqn:Hm; [| discriminate].
  apply rotation_match_has_prefix in Hm.
  destruct (timeFromLog l) as [date [e |]] eqn:Ht.
  - assert (He : snd (timeFromLog l) <> None) by (rewrite Ht; discriminate).
    apply timeFromLog_error_iff in He. congruence.
  - destruct (time.After date threshold); discriminate.
Qed.

Lemma inspect_Break_iff (expression : string) (threshold : time.Time) (l : string) :
  inspect (rotationPattern expression) threshold l = Break <->
  stops (rotationPattern expression) threshold l = true.
Proof.
  pose proof (inspect_never_returns expression threshold l) as Hr.
  unfold inspect, stops in *.
  destruct (String.eqb l ""); simpl; [split; discriminate |].
  destruct (1 <? _)%nat; simpl; [| split; discriminate].
  destruct (timeFromLog l) as [date [e |]]; simpl.
  - exfalso. apply (Hr e). reflexivity.
  - destruct (time.After date threshold); split; try reflexivity; discriminate.
Qed.

(** ** The polling loop *)

Lemma Seek_current (fs : os.FS) (f : os.File) :
  fst (fst (os.Seek fs f 0 1)) = f.
Proof.
  unfold os.Seek. simpl. destruct f as [p o]; simpl.
  rewrite Z.add_0_r. destruct (o <? 0); reflexivity.
Qed.

Lemma bytes_append (fs : os.FS) (p text : string) :
  os.bytes (os.append fs p text p) = os.bytes (fs p) ++ text.
Proof. unfold os.append. now rewrite String.eqb_refl. Qed.

Ltac case_inspect :=
  match goal with
  | |- context [match inspect ?r ?t ?l with _ => _ end] =>
      destruct (inspect r t l) eqn:?
  end.

(** One turn of the loop. *)
Lemma pollLoop_S (n : nat) (re : regexp.Regexp) (threshold : time.Time)
  (fs : os.FS) (file : os.File) (appends : list string) :
  let fs1 := os.append fs (os.path file) (hd "" appends) in
  let data := os.bytes (fs (os.path file)) ++ hd "" appends in
  let l := firstLine data (os.offset file) in
  pollLoop (S n) re threshold fs file appends =
  match inspect re threshold l with
  | Return err => mkPoll (Some err) [(os.offset file, l)]
  | Break => mkPoll None [(os.offset file, l)]
  | Continue =>
      turn (os.offset file, l)
        (pollLoop n re threshold fs1
           (os.mkFile (os.path file) (os.offset file + taken data (os.offset file)))
           (tl appends))
  end.
Proof.
  intros fs1 data l. simpl. fold fs1.
  pose proof (Seek_current fs1 file) as Hs.
  destruct (os.Seek fs1 file 0 1) as [[f' z] e]. simpl in Hs. subst f'.
  unfold bufio.ScanText, os.rest, os.advance, firstLine, taken in *.
  subst l. subst data. unfold fs1 at 1 2 3. rewrite bytes_append.
  destruct (bufio.firstScan _ _) as [[text k] tooLong]. simpl.
  reflexivity.
Qed.

Lemma pollLoop_length (re : regexp.Regexp) (threshold : time.Time) (n : nat) :
  forall fs file appends,
    (List.length (poll_turns (pollLoop n re threshold fs file appends)) <= n)%nat.
Proof.
  induction n as [| n IH]; intros fs file appends; [simpl; lia |].
  rewrite pollLoop_S. destruct (inspect _ _ _); simpl; [| lia | lia].
  specialize (IH (os.append fs (os.path file) (hd "" appends))
                 (os.mkFile (os.path file)
                    (os.offset file
                     + taken (os.bytes (fs (os.path file)) ++ hd "" appends) (os.offset file)))
                 (tl appends)).
  lia.
Qed.

Lemma pollLoop_no_error (expression : string) (threshold : time.Time) (n : nat) :
  forall fs file appends,
    poll_err (pollLoop n (rotationPattern expression) threshold fs file appends) = None.
Proof.
  induction n as [| n IH]; intros fs file appends; [reflexivity |].
  rewrite pollLoop_S.
  destruct (inspect _ _ _) eqn:Hi; simpl; auto.
  exfalso. eapply inspect_never_returns, Hi.
Qed.

(** Without a line that passes the test, the loop takes all its turns. *)
Lemma pollLoop_exhausts (expression : string) (threshold : time.Time) (n : nat) :
  forall fs file appends,
    (forall t, In t (poll_turns (pollLoop n (rotationPattern expression) threshold
                                          fs file appends)) ->
               stops (rotationPattern expression) threshold (snd t) = false) ->
    List.length (poll_turns (pollLoop n (rotationPattern expression) threshold
                                      fs file appends)) = n.
Proof.
  induction n as [| n IH]; intros fs file appends; [reflexivity |].
  rewrite pollLoop_S. case_inspect; unfold turn; cbn [poll_turns List.length]; intros H.
  - f_equal. apply IH. intros t Ht. apply H. right. exact Ht.
  - pose proof (H _ (or_introl eq_refl)) as Hf. cbn [snd] in Hf.
    match goal with
    | Hi : inspect _ _ _ = Break |- _ =>
        apply inspect_Break_iff in Hi; rewrite Hf in Hi; discriminate Hi
    end.
  - exfalso. eapply inspect_never_returns. eassumption.
Qed.

(** What every turn starts from and takes, and when it is the last. *)
Lemma pollLoop_turns (re : regexp.Regexp) (threshold : time.Time) (n : nat) :
  forall fs file appends i start l,
    let turns := poll_turns (pollLoop n re threshold fs file appends) in
    let data := grown (os.bytes (fs (os.path file))) appends i in
    nth_error turns i = Some (start, l) ->
    (i < n)%nat
    /\ os.offset file <= start
    /\ (i = O -> start = os.offset file)
    /\ l = firstLine data start
    /\ (forall t, nth_error turns (S i) = Some t ->
                  fst t = start + taken data start
                  /\ inspect re threshold l = Continue)
    /\ (inspect re threshold l <> Continue -> List.length turns = S i)
    /\ (inspect re threshold l = Continue -> (S i < n)%nat ->
        nth_error turns (S i) <> None).
Proof.
  induction n as [| n IH]; intros fs file appends i start l turns data Hn.
  - subst turns. simpl in Hn. destruct i; discriminate.
  - subst turns. rewrite pollLoop_S in *.
    set (data0 := os.bytes (fs (os.path file)) ++ hd "" appends) in *.
    set (fs1 := os.append fs (os.path file) (hd "" appends)) in *.
    set (file1 := os.mkFile (os.path file) (os.offset file + taken data0 (os.offset file))) in *.
    assert (Htaken : 0 <= taken data0 (os.offset file)) by (unfold taken; lia).
    destruct i as [| i].
    + assert (Hhd : (start, l) = (os.offset file, firstLine data0 (os.offset file))).
      { destruct (inspect _ _ _); simpl in Hn; congruence. }
      inversion Hhd; subst start l. clear Hhd.
      subst data. simpl. fold data0.
      repeat split; try lia.
      * destruct (inspect _ _ _) eqn:Hi; simpl in H; try discriminate.
        destruct (poll_turns (pollLoop n re threshold fs1 file1 (tl appends)))
          as [| [s1 l1] rest] eqn:Hp; [discriminate |].
        simpl in H. inversion H; subst t. simpl.
        pose proof (IH fs1 file1 (tl appends) O s1 l1) as IH0.
        rewrite Hp in IH0. simpl in IH0.
        destruct (IH0 eq_refl) as (_ & _ & Hs & _). rewrite (Hs eq_refl). reflexivity.
      * destruct (inspect _ _ _) eqn:Hi; simpl in H; try discriminate. reflexivity.
      * intros Hi. destruct (inspect _ _ _); simpl; congruence.
      * intros Hi Hlt. rewrite Hi. simpl.
        destruct n as [| n]; [lia |].
        rewrite pollLoop_S. case_inspect; simpl; discriminate.
    + destruct (inspect re threshold (firstLine data0 (os.offset file))) eqn:Hi;
        simpl in Hn; try (destruct i; discriminate).
      pose proof (IH fs1 file1 (tl appends) i start l Hn) as IHi.
      assert (Hdata : grown (os.bytes (fs1 (os.path file1))) (tl appends) i = data).
      { subst data. simpl. unfold fs1. rewrite bytes_append. reflexivity. }
      cbv zeta in IHi. rewrite Hdata in IHi.
      destruct IHi as (Hlt & Hoff & _ & Hl & Hnext & Hlast & Hmore).
      simpl in Hoff.
      repeat split; try lia; try assumption.
      * simpl in H. apply Hnext in H. apply H.
      * simpl in H. apply Hnext in H. apply H.
      * intros Hc. simpl. f_equal. apply Hlast, Hc.
      * intros Hc Hlt'. simpl. apply Hmore; [assumption | lia].
Qed.

(** ** The completion poller *)

Lemma tailSeek_in_file (n : Z) :
  0 <= n -> 0 <= n + tailSeek n <= n /\ n - 1024 <= n + tailSeek n.
Proof. unfold tailSeek. lia. Qed.

Lemma len_nonneg (s : string) : 0 <= len s.
Proof. unfold len. lia. Qed.

(** Once the log is open and its size known, the seek succeeds and the
    poll is the loop of ten turns. *)
Lemma waitForRotation_eq (fs : os.FS) (appends : list string)
  (filePath expression : string) (threshold : time.Time) :
  os.open_err (fs filePath) = None -> os.stat_err (fs filePath) = None ->
  let n := len (os.bytes (fs filePath)) in
  waitForRotation fs appends filePath expression threshold =
  pollLoop 10 (rotationPattern expression) threshold fs
    (os.mkFile filePath (n + tailSeek n)) appends.
Proof.
  intros Ho Hs n. unfold waitForRotation, os.Open. rewrite Ho.
  unfold os.Stat. simpl os.path. rewrite Hs.
  unfold os.Seek. simpl os.path. fold n.
  change (2 =? 0) with false. change (2 =? 1) with false. cbv iota.
  pose proof (tailSeek_in_file n (len_nonneg _)) as Hn.
  destruct (n + tailSeek n <? 0) eqn:Hlt; [apply Z.ltb_lt in Hlt; lia |].
  reflexivity.
Qed.

Lemma waitForRotation_turns_open (fs : os.FS) (appends : list string)
  (filePath expression : string) (threshold : time.Time) :
  poll_turns (waitForRotation fs appends filePath expression threshold) <> [] ->
  os.open_err (fs filePath) = None /\ os.stat_err (fs filePath) = None.
Proof.
  unfold waitForRotation, os.Open, os.Stat.
  destruct (os.open_err (fs filePath)); simpl; [intros H; now contradiction H |].
  destruct (os.stat_err (fs filePath)); simpl; [intros H; now contradiction H |].
  auto.
Qed.

(** The only errors of a poll are those of opening the log and of asking
    for its size. *)
Lemma waitForRotation_errors (fs : os.FS) (appends : list string)
  (filePath expression : string) (threshold : time.Time) (err : error) :
  poll_err (waitForRotation fs appends filePath expression threshold) = Some err ->
  os.open_err (fs filePath) = Some err
  \/ (os.open_err (fs filePath) = None /\ os.stat_err (fs filePath) = Some err).
Proof.
  destruct (os.open_err (fs filePath)) as [eo |] eqn:Ho.
  - unfold waitForRotation, os.Open. rewrite Ho. simpl. auto.
  - destruct (os.stat_err (fs filePath)) as [es |] eqn:Hs.
    + unfold waitForRotation, os.Open, os.Stat. rewrite Ho. simpl. rewrite Hs.
      simpl. intros H. right. split; congruence.
    + rewrite waitForRotation_eq by assumption.
      rewrite pollLoop_no_error. discriminate.
Qed.

(** C5: when the log can be read and no line that the poll inspects
    passes the test (the marker pattern, with an instant after the
    watermark), the poll takes its ten turns and returns nil. *)
Theorem poll_exhaustion_is_success (fs : os.FS) (appends : list string)
  (filePath expression : string) (threshold : time.Time) :
  os.open_err (fs filePath) = None -> os.stat_err (fs filePath) = None ->
  let p := waitForRotation fs appends filePath expression threshold in
  (forall t, In t (poll_turns p) ->
             stops (rotationPattern expression) threshold (snd t) = false) ->
  poll_err p = None /\ List.length (poll_turns p) = 10%nat.
Proof.
  intros Ho Hs p. subst p. rewrite waitForRotation_eq by assumption.
  intros H. split.
  - apply pollLoop_no_error.
  - apply pollLoop_exhausts, H.
Qed.

Lemma poll_exhaustion_is_success_witness :
  let p := waitForRotation
             (logWith (line "[Mon Jan 2 15:04:05.100 2012] rotating index 'main': success"))
             [line "[Mon Jan 2 15:04:06.200 2012] accepting connections"]
             searchdLogPath marker baseDate in
  poll_err p = None /\ List.length (poll_turns p) = 10%nat.
Proof.
  apply (poll_exhaustion_is_success
           (logWith (line "[Mon Jan 2 15:04:05.100 2012] rotating index 'main': success"))
           [line "[Mon Jan 2 15:04:06.200 2012] accepting connections"]
           searchdLogPath marker baseDate).
  - reflexivity.
  - reflexivity.
  - intros t Ht.
    apply negb_true_iff.
    revert t Ht. apply forallb_forall. vm_compute. reflexivity.
Defined.

(** Whatever the log holds, a poll that could open it takes at most ten
    turns and returns nil. *)
Lemma poll_is_bounded (fs : os.FS) (appends : list string)
  (filePath expression : string) (threshold : time.Time) :
  os.open_err (fs filePath) = None -> os.stat_err (fs filePath) = None ->
  let p := waitForRotation fs appends filePath expression threshold in
  poll_err p = None /\ (List.length (poll_turns p) <= 10)%nat.
Proof.
  intros Ho Hs p. subst p. rewrite waitForRotation_eq by assumption.
  split; [apply pollLoop_no_error | apply pollLoop_length].
Qed.

Lemma unstamped_line_continues (expression : string) (threshold : time.Time) (l : string) :
  snd (timeFromLog l) <> None ->
  inspect (rotationPattern expression) threshold l = Continue.
Proof.
  intros H. apply timeFromLog_error_iff in H. unfold inspect.
  destruct (String.eqb l ""); [reflexivity |].
  destruct (1 <? List.length (regexp.FindStringSubmatch (rotationPattern expression) l))%nat
    eqn:Hm; [| reflexivity].
  apply rotation_match_has_prefix in Hm. congruence.
Qed.

(** C8 (amended): a line without the bracketed prefix does not match the
    marker pattern; the poll that inspects one passes on to the next
    turn, if one is left, and returns nil. *)
Theorem poll_skips_lines_without_prefix (fs : os.FS) (appends : list string)
  (filePath expression : string) (threshold : time.Time)
  (i : nat) (start : Z) (l : string) :
  let p := waitForRotation fs appends filePath expression threshold in
  nth_error (poll_turns p) i = Some (start, l) ->
  snd (timeFromLog l) <> None ->
  poll_err p = None
  /\ inspect (rotationPattern expression) threshold l = Continue
  /\ ((i < 9)%nat -> nth_error (poll_turns p) (S i) <> None).
Proof.
  intros p Hn Ht.
  assert (Hopen : poll_turns p <> []) by (destruct (poll_turns p), i; discriminate).
  apply waitForRotation_turns_open in Hopen. destruct Hopen as [Ho Hs].
  pose proof (unstamped_line_continues expression threshold l Ht) as Hc.
  subst p. rewrite waitForRotation_eq in * by assumption.
  split; [apply pollLoop_no_error | split; [exact Hc |]].
  intros Hi. apply pollLoop_turns in Hn.
  destruct Hn as (_ & _ & _ & _ & _ & _ & Hmore). apply Hmore; [exact Hc | lia].
Qed.

Lemma poll_skips_lines_without_prefix_witness :
  let p := waitForRotation (logWith "") [line "no timestamp here"]
                           searchdLogPath marker baseDate in
  poll_err p = None
  /\ inspect (rotationPattern marker) baseDate "no timestamp here" = Continue
  /\ ((0 < 9)%nat -> nth_error (poll_turns p) 1 <> None).
Proof.
  apply (poll_skips_lines_without_prefix (logWith "") [line "no timestamp here"]
           searchdLogPath marker baseDate 0 0 "no timestamp here").
  - vm_compute. reflexivity.
  - vm_compute. discriminate.
Defined.

(** C8 (as stated) fails: the poll inspects a line on which the
    extraction of the timestamp fails, and it neither stops nor returns
    an error; it takes its nine other turns. *)
Lemma poll_does_not_abort_on_unstamped_line :
  let p := waitForRotation (logWith "") [line "no timestamp here"]
                           searchdLogPath marker baseDate in
  nth_error (poll_turns p) 0 = Some (0, "no timestamp here")
  /\ snd (timeFromLog "no timestamp here")
     = Some (errors_New "Could not match a timestamp prefix")
  /\ poll_err p = None
  /\ List.length (poll_turns p) = 10%nat.
Proof.
  vm_compute. repeat split; reflexivity.
Qed.

(** Each turn reads on from the read offset of the open file, which the
    seek before the loop put inside the last 1024 bytes and which each
    turn leaves after the bytes its scanner has read, whether or not the
    turn has inspected them; the turn inspects the first line found
    there, and it is the last turn exactly when that line passes the
    test. *)
Theorem poll_reads_forward (fs : os.FS) (appends : list string)
  (filePath expression : string) (threshold : time.Time)
  (i : nat) (start : Z) (l : string) :
  let p := waitForRotation fs appends filePath expression threshold in
  let re := rotationPattern expression in
  let data := grown (os.bytes (fs filePath)) appends i in
  let size := len (os.bytes (fs filePath)) in
  nth_error (poll_turns p) i = Some (start, l) ->
  (i < 10)%nat
  /\ l = firstLine data start
  /\ (i = O -> size - 1024 <= start <= size)
  /\ (forall t, nth_error (poll_turns p) (S i) = Some t ->
                fst t = start + taken data start)
  /\ (stops re threshold l = true -> List.length (poll_turns p) = S i)
  /\ (stops re threshold l = false -> (i < 9)%nat ->
      nth_error (poll_turns p) (S i) <> None).
Proof.
  intros p re data size Hn.
  assert (Hopen : poll_turns p <> []) by (destruct (poll_turns p), i; discriminate).
  apply waitForRotation_turns_open in Hopen. destruct Hopen as [Ho Hs].
  subst p. rewrite waitForRotation_eq in * by assumption.
  apply pollLoop_turns in Hn. simpl os.path in Hn. simpl os.offset in Hn.
  fold data in Hn. fold size in Hn. fold re in Hn.
  destruct Hn as (Hlt & Hoff & H0 & Hl & Hnext & Hlast & Hmore).
  pose proof (tailSeek_in_file size (len_nonneg _)) as Hw.
  repeat split; try assumption.
  - specialize (H0 H). lia.
  - specialize (H0 H). lia.
  - intros t Ht. apply Hnext in Ht. apply Ht.
  - intros Hst. apply Hlast. apply inspect_Break_iff in Hst.
    change (inspect re threshold l = Break) in Hst. rewrite Hst. discriminate.
  - intros Hst Hi. apply Hmore; [| lia].
    pose proof (inspect_never_returns expression threshold l) as Hr.
    pose proof (inspect_Break_iff expression threshold l) as Hb.
    fold re in Hr, Hb.
    destruct (inspect re threshold l) eqn:E; [reflexivity | | exfalso; eapply Hr; eauto].
    destruct Hb as [Hb _]. rewrite (Hb eq_refl) in Hst. discriminate.
Qed.

Lemma poll_reads_forward_witness :
  let fs := logWith "" in
  let appends := [line "[Mon Jan 2 15:04:09.000 2012] rotating index 'main': success"
                  ++ line "[Mon Jan 2 15:04:10.000 2012] rotating index: all indexes done"] in
  let l := "[Mon Jan 2 15:04:09.000 2012] rotating index 'main': success" in
  let p := waitForRotation fs appends searchdLogPath marker (time.Date 2012 1 2 15 4 5 0) in
  let re := rotationPattern marker in
  let data := grown (os.bytes (fs searchdLogPath)) appends 0 in
  let size := len (os.bytes (fs searchdLogPath)) in
  (0 < 10)%nat
  /\ l = firstLine data 0
  /\ (O = O -> size - 1024 <= 0 <= size)
  /\ (forall t, nth_error (poll_turns p) 1 = Some t -> fst t = 0 + taken data 0)
  /\ (stops re (time.Date 2012 1 2 15 4 5 0) l = true -> List.length (poll_turns p) = 1%nat)
  /\ (stops re (time.Date 2012 1 2 15 4 5 0) l = false -> (0 < 9)%nat ->
      nth_error (poll_turns p) 1 <> None).
Proof.
  apply (poll_reads_forward (logWith "")
           [line "[Mon Jan 2 15:04:09.000 2012] rotating index 'main': success"
            ++ line "[Mon Jan 2 15:04:10.000 2012] rotating index: all indexes done"]
           searchdLogPath marker (time.Date 2012 1 2 15 4 5 0) 0 0
           "[Mon Jan 2 15:04:09.000 2012] rotating index 'main': success").
  vm_compute. reflexivity.
Defined.

(** C2 (as the code behaves): the log gains two lines before the first
    turn, the more recent of them the completion line with an instant
    after the watermark.  That line is the last line of the tail window
    and passes the test, yet no turn inspects it.  The scanner of the
    first turn reads both lines into its buffer and hands out the older
    one; the scanner is dropped with the turn, and the completion line
    with it, for the read offset of the file is by then at its end, 124.
    The other nine turns start there and find nothing to read, and the
    poll runs out of turns. *)
Theorem poll_misses_most_recent_line :
  let older := "[Mon Jan 2 15:04:09.000 2012] rotating index 'main': success" in
  let newest := "[Mon Jan 2 15:04:10.000 2012] rotating index: all indexes done" in
  let watermark := time.Date 2012 1 2 15 4 5 0 in
  let data := line older ++ line newest in
  let p := waitForRotation (logWith "") [data] searchdLogPath marker watermark in
  spec_lastLine data = newest
  /\ stops (rotationPattern marker) watermark newest = true
  /\ map snd (poll_turns p) = [older; ""; ""; ""; ""; ""; ""; ""; ""; ""]
  /\ map fst (poll_turns p) = [0; 124; 124; 124; 124; 124; 124; 124; 124; 124].
Proof.
  vm_compute. repeat split; reflexivity.
Qed.

(** ** The JSON scanner and the read buffer *)

Lemma stepFn_keeps_error (s : json.scanner) (c : ascii) :
  errorKept s -> errorKept (fst (json.stepFn s c)) /\
  (snd (json.stepFn s c) = json.scanError -> json.err (fst (json.stepFn s c)) <> None).
Proof.
  unfold errorKept. destruct s as [st ps e et b]. simpl. intros Hinv.
  destruct st; unfold json.stepFn; simpl;
    repeat match goal with
      | |- context [if ?b then _ else _] => destruct b; simpl
      | |- context [match ?x with _ => _ end] => destruct x; simpl
      | |- _ =>
          progress unfold json.doBeginValue, json.doBeginString, json.doEndValue,
            json.doEndTop, json.do0, json.doESign, json.hexStep, json.expect,
            json.pushParseState, json.popParseState, json.replaceTop, json.setStep,
            json.error_; simpl
      end;
    split; intros; try discriminate; auto.
Qed.

(** No state of the scanner takes a NUL byte. *)
Lemma stepFn_NUL (s : json.scanner) :
  errorKept s ->
  json.err (fst (json.stepFn s NUL)) <> None
  /\ json.step (fst (json.stepFn s NUL)) = json.stateError.
Proof.
  unfold errorKept. destruct s as [st ps e et b]. simpl. intros Hinv.
  destruct st; cbv;
    repeat match goal with
      | |- context [match ?x with _ => _ end] => is_var x; destruct x
      end;
    split; try discriminate; try reflexivity; apply Hinv; reflexivity.
Qed.

Lemma count_keeps_error (s : json.scanner) : errorKept s -> errorKept (json.count s).
Proof. unfold errorKept. destruct s; simpl. auto. Qed.

(** An error, once recorded, is the verdict. *)
Lemma feed_error_sticks (data : string) (s : json.scanner) (e : error) :
  json.err s = Some e -> json.step s = json.stateError -> json.feed s data = Some e.
Proof.
  intros He Hs. destruct data as [| c data]; simpl.
  - unfold json.eof. now rewrite He.
  - unfold json.stepFn, json.count. simpl. rewrite Hs. simpl. exact He.
Qed.

Lemma feed_NUL (data : string) :
  forall s, errorKept s -> contains_byte NUL data = true -> json.feed s data <> None.
Proof.
  induction data as [| c data IH]; intros s Hinv Hc; [discriminate |].
  simpl in Hc. simpl json.feed.
  apply count_keeps_error in Hinv.
  destruct (eqc c NUL) eqn:Heq.
  - apply Ascii.eqb_eq in Heq. subst c.
    destruct (stepFn_NUL _ Hinv) as [Herr Hst].
    destruct (json.stepFn (json.count s) NUL) as [s' o]. simpl in Herr, Hst.
    destruct (json.err s') as [e |] eqn:He; [| now contradiction Herr].
    destruct o; try (rewrite (feed_error_sticks data s' e He Hst); discriminate).
    discriminate.
  - simpl in Hc.
    destruct (stepFn_keeps_error (json.count s) c Hinv) as [Hinv' Herr].
    destruct (json.stepFn (json.count s) c) as [s' o]. simpl in Hinv', Herr.
    destruct o; try (apply IH; assumption).
    apply Herr. reflexivity.
Qed.

Lemma checkValid_NUL (data : string) :
  contains_byte NUL data = true -> json.checkValid data <> None.
Proof.
  apply feed_NUL. unfold errorKept. discriminate.
Qed.

Lemma contains_byte_app (c : ascii) (s t : string) :
  contains_byte c (s ++ t) = contains_byte c s || contains_byte c t.
Proof.
  induction s as [| a s IH]; simpl; [reflexivity |]. now rewrite IH, orb_assoc.
Qed.

Lemma length_take (n : nat) (s : string) :
  String.length (take n s) = Nat.min n (String.length s).
Proof.
  revert s. induction n as [| n IH]; intros [| a s]; simpl; auto.
Qed.

Lemma drop_repeat_byte (c : ascii) (k n : nat) :
  drop k (repeat_byte c n) = repeat_byte c (n - k).
Proof.
  revert n. induction k as [| k IH]; intros [| n]; simpl; auto.
Qed.

(** A read that brings fewer bytes than the buffer holds leaves NUL
    bytes in it. *)
Lemma short_read_leaves_NUL (conn : net.Conn) :
  net.read_err conn = None ->
  (String.length (net.incoming conn) < 1024)%nat ->
  contains_byte NUL (fst (fst (net.Read conn (repeat_byte NUL 1024)))) = true.
Proof.
  intros He Hlen. unfold net.Read. rewrite He. cbn [fst].
  rewrite contains_byte_app, drop_repeat_byte, length_take.
  assert (Hl : forall n, String.length (repeat_byte NUL n) = n)
    by (induction n; simpl; auto).
  rewrite Hl.
  replace (Nat.min 1024 (String.length (net.incoming conn)))
    with (String.length (net.incoming conn)) by lia.
  destruct (1024 - String.length (net.incoming conn))%nat eqn:E; [lia |].
  simpl. apply orb_true_r.
Qed.

(** X16: every request shorter than the buffer is answered with a
    decoding error, whatever it says. *)
Lemma short_request_is_refused (w : World) (conn : net.Conn) :
  net.read_err conn = None ->
  (String.length (net.incoming conn) < 1024)%nat ->
  exists e,
    handleRequest w conn =
    mkHandled [toJson (mkResponse "" ("Could not decode the request JSON: " ++ errorText e))]
              (Some e).
Proof.
  intros He Hlen.
  pose proof (short_read_leaves_NUL conn He Hlen) as Hnul.
  unfold handleRequest.
  destruct (net.Read conn (repeat_byte NUL 1024)) as [[buf n] err] eqn:Hr.
  assert (err = None) by (unfold net.Read in Hr; rewrite He in Hr; congruence).
  subst err. simpl in Hnul.
  apply checkValid_NUL in Hnul.
  unfold json.Unmarshal.
  destruct (json.checkValid buf) as [e |]; [| now contradiction Hnul].
  exists e. reflexivity.
Qed.

(** C3 (as the code behaves): the request [{"Type":"ping"}] is answered
    with a decoding error and not with [pong].  The handler reads it into
    a buffer of 1024 NUL bytes and decodes the whole buffer, and the
    decoder refuses the NUL byte that follows the object. *)
Theorem ping_is_refused (w : World) :
  handleRequest w (net.mkConn (typeOnly "ping") None) =
  mkHandled
    [toJson (mkResponse ""
       "Could not decode the request JSON: invalid character '\x00' after top-level value")]
    (Some (SyntaxError "invalid character '\x00' after top-level value" 16)).
Proof.
  vm_compute. reflexivity.
Qed.

(** The same request filled up with spaces to 1024 bytes is answered
    with [pong]. *)
Lemma padded_ping_is_answered (w : World) :
  handleRequest w (net.mkConn (padded (typeOnly "ping")) None) =
  mkHandled [toJson (mkResponse "pong" "")] None.
Proof.
  vm_compute. reflexivity.
Qed.

Lemma htmlSafe_ascii (c : ascii) : json.htmlSafe c = true -> (code c <? 128) = true.
Proof.
  unfold json.htmlSafe. intros H.
  apply andb_true_iff in H. destruct H as [H _].
  apply andb_true_iff in H. apply H.
Qed.

(** A text that JSON writes as it is, at the head of a string, is
    written as it is. *)
Lemma appendString_safe (p t : string) :
  safeText p = true ->
  json.appendString (String.length (p ++ t)) (p ++ t)
  = p ++ json.appendString (String.length t) t.
Proof.
  induction p as [| a p IH]; intros H; [reflexivity |].
  simpl in H. apply andb_true_iff in H. destruct H as [Ha Hp].
  simpl. rewrite (htmlSafe_ascii a Ha), Ha, (IH Hp). reflexivity.
Qed.

Lemma escapeJSON_safe (s : string) : safeText s = true -> escapeJSON s = s.
Proof.
  unfold escapeJSON. induction s as [| a s IH]; intros H; [reflexivity |].
  simpl in H. apply andb_true_iff in H. destruct H as [Ha Hs].
  simpl. rewrite (htmlSafe_ascii a Ha), Ha, (IH Hs). reflexivity.
Qed.

(** An ASCII byte as [json.Marshal] writes it is read back by the
    decoder as that byte, in one turn. *)
Lemma unquote_appendString_byte (a : ascii) :
  (code a <? 128) = true ->
  forall fuel n s,
    json.unquote' (S fuel) (json.appendString (S n) (String a s))
    = String a (json.unquote' fuel (json.appendString n s))
    /\ (S (String.length (json.appendString n s))
        <= String.length (json.appendString (S n) (String a s)))%nat.
Proof.
  destruct a as [b0 b1 b2 b3 b4 b5 b6 b7].
  destruct b7; [destruct b0, b1, b2, b3, b4, b5, b6; discriminate |].
  intros _ fuel n s.
  destruct b0, b1, b2, b3, b4, b5, b6;
    (split; [reflexivity | cbn [json.appendString]; simpl String.length; lia]).
Qed.

Lemma unquote_appendString_ascii (s : string) :
  asciiText s = true ->
  forall fuel, (String.length s <= fuel)%nat ->
    json.unquote' fuel (json.appendString (String.length s) s) = s
    /\ (String.length s <= String.length (json.appendString (String.length s) s))%nat.
Proof.
  induction s as [| a s IH]; intros H fuel Hf.
  - destruct fuel; split; reflexivity || (simpl; lia).
  - simpl in H. apply andb_true_iff in H. destruct H as [Ha Hs].
    destruct fuel as [| fuel]; [simpl in Hf; lia |].
    change (String.length (String a s)) with (S (String.length s)) in *.
    destruct (unquote_appendString_byte a Ha fuel (String.length s) s) as [Hu Hl].
    destruct (IH Hs fuel ltac:(lia)) as [IHu IHl].
    rewrite Hu, IHu. split; [reflexivity | lia].
Qed.

(** The decoder reads an ASCII text back from what the encoder wrote. *)
Lemma unquote_escapeJSON (s : string) :
  asciiText s = true -> json.unquote (escapeJSON s) = s.
Proof.
  intros H. unfold json.unquote, escapeJSON.
  destruct (unquote_appendString_ascii s H (String.length s) (le_n _)) as [_ Hl].
  apply (unquote_appendString_ascii s H). exact Hl.
Qed.

(** C9: a request that decodes and whose [Type] is neither [ping] nor
    [reindex] is answered with one message, the JSON object whose
    [Message] is empty and whose [Error] is [Unknown request: ]
    followed by the [Type]: the bytes written are those below, with the
    [Type] written as a JSON string writes it.  A [Type] of safe bytes
    stands in the message as it is, and for an ASCII [Type] the decoder
    reads the [Type] itself back from what was written. *)
Theorem unknown_request_is_named (w : World) (conn : net.Conn) (request : Request) :
  net.read_err conn = None ->
  json.Unmarshal (fst (fst (net.Read conn (repeat_byte NUL 1024)))) (mkRequest "" "")
  = (request, None) ->
  Type_ request <> "ping" -> Type_ request <> "reindex" ->
  handleRequest w conn =
  mkHandled [toJson (mkResponse "" ("Unknown request: " ++ Type_ request))] None
  /\ toJson (mkResponse "" ("Unknown request: " ++ Type_ request))
     = "{" ++ q ++ "Message" ++ q ++ ":" ++ q ++ q ++ ","
           ++ q ++ "Error" ++ q ++ ":"
           ++ q ++ "Unknown request: " ++ escapeJSON (Type_ request) ++ q ++ "}"
  /\ (safeText (Type_ request) = true -> escapeJSON (Type_ request) = Type_ request)
  /\ (asciiText (Type_ request) = true ->
      json.unquote (escapeJSON (Type_ request)) = Type_ request).
Proof.
  intros He Hd Hp Hr. split; [| split; [| split]].
  - unfold handleRequest.
    destruct (net.Read conn (repeat_byte NUL 1024)) as [[buf n] err] eqn:Hread.
    assert (err = None) by (unfold net.Read in Hread; rewrite He in Hread; congruence).
    subst err. simpl in Hd. rewrite Hd.
    apply String.eqb_neq in Hp, Hr. rewrite Hp, Hr. reflexivity.
  - unfold toJson, json.Marshal, json.quoted. cbn [Message Error].
    rewrite (appendString_safe "Unknown request: " (Type_ request) eq_refl).
    fold (escapeJSON (Type_ request)).
    change (json.appendString (String.length "Message") "Message") with "Message".
    change (json.appendString (String.length "Error") "Error") with "Error".
    change (json.appendString (String.length "") "") with "".
    unfold q. rewrite !append_assoc. reflexivity.
  - apply escapeJSON_safe.
  - apply unquote_escapeJSON.
Qed.

Lemma unknown_request_is_named_witness :
  handleRequest (mkWorld (logWith "") noIndexer [])
                (net.mkConn (padded (typeOnly "st<tus")) None) =
  mkHandled [toJson (mkResponse "" ("Unknown request: " ++ "st<tus"))] None
  /\ toJson (mkResponse "" ("Unknown request: " ++ "st<tus"))
     = "{" ++ q ++ "Message" ++ q ++ ":" ++ q ++ q ++ ","
           ++ q ++ "Error" ++ q ++ ":"
           ++ q ++ "Unknown request: " ++ escapeJSON "st<tus" ++ q ++ "}"
  /\ (safeText "st<tus" = true -> escapeJSON "st<tus" = "st<tus")
  /\ (asciiText "st<tus" = true -> json.unquote (escapeJSON "st<tus") = "st<tus").
Proof.
  apply (unknown_request_is_named (mkWorld (logWith "") noIndexer [])
           (net.mkConn (padded (typeOnly "st<tus")) None) (mkRequest "st<tus" "")).
  - reflexivity.
  - vm_compute. reflexivity.
  - discriminate.
  - discriminate.
Defined.

(** The bytes that the handler writes for two unknown requests, one
    with a [Type] of safe bytes and one with a byte that JSON escapes. *)
Lemma unknown_request_bytes :
  written (handleRequest (mkWorld (logWith "") noIndexer [])
             (net.mkConn (padded (typeOnly "status")) None))
  = ["{" ++ q ++ "Message" ++ q ++ ":" ++ q ++ q ++ ","
         ++ q ++ "Error" ++ q ++ ":" ++ q ++ "Unknown request: status" ++ q ++ "}"]
  /\ written (handleRequest (mkWorld (logWith "") noIndexer [])
                (net.mkConn (padded (typeOnly "st<tus")) None))
     = ["{" ++ q ++ "Message" ++ q ++ ":" ++ q ++ q ++ ","
            ++ q ++ "Error" ++ q ++ ":" ++ q ++ "Unknown request: st"
            ++ String backslash "u003ctus" ++ q ++ "}"].
Proof. vm_compute. split; reflexivity. Qed.

(** ** The tail of the log *)

Lemma tailSeek_long_file (n : Z) :
  1024 < n -> n + tailSeek n = spec_windowStart n.
Proof. unfold tailSeek, spec_windowStart. lia. Qed.

Lemma tailSeek_empty_file : 0 + tailSeek 0 = spec_windowStart 0.
Proof. reflexivity. Qed.

(** In a file of 1 to 1024 bytes the seek stops after the first byte. *)
Lemma tailSeek_short_file (n : Z) :
  1 <= n <= 1024 -> n + tailSeek n = 1 /\ spec_windowStart n = 0.
Proof. unfold tailSeek, spec_windowStart. lia. Qed.

(** C4 (as the code behaves): in a log of one line, 63 bytes long, the
    seek goes to offset 1 and not to offset 0, the line is read without
    its first byte, and the timestamp of the log cannot be extracted.
    From offset 0 the line is read whole and its timestamp is found. *)
Theorem tail_loses_first_byte :
  let l := "[Mon Jan 2 15:04:05.100 2012] rotating index: all indexes done" in
  let fs := logWith (line l) in
  let file := os.mkFile searchdLogPath 0 in
  len (os.bytes (fs searchdLogPath)) = 63
  /\ spec_windowStart 63 = 0
  /\ os.Seek fs file (tailSeek 63) 2 = (os.mkFile searchdLogPath 1, 1, None)
  /\ readLines fs (os.mkFile searchdLogPath 1)
     = (["Mon Jan 2 15:04:05.100 2012] rotating index: all indexes done"], None)
  /\ getLastTimestamp fs searchdLogPath
     = (Some (errors_New "Could not match a timestamp prefix"), time.zero)
  /\ readLines fs (os.mkFile searchdLogPath 0) = ([l], None)
  /\ timeFromLog l = (time.Date 2012 1 2 15 4 5 0, None).
Proof.
  vm_compute. repeat split; reflexivity.
Qed.

(** ** The rebuild *)

(** The outcome of a rebuild does not depend on the error of [cmd.Run]. *)
Lemma reindex_ignores_run_error (w w' : World) (indexName : string) :
  fs w = fs w' -> appends w = appends w' ->
  (forall cmd, snd (run w cmd) = snd (run w' cmd)) ->
  reindex w indexName = reindex w' indexName.
Proof.
  intros Hfs Ha Hrun. unfold reindex. rewrite Hfs, Ha.
  destruct (getLastTimestamp (fs w') searchdLogPath) as [[e |] lastDate]; [reflexivity |].
  specialize (Hrun (exec.Command indexerBinPath
                      ["--config " ++ configPath; "--rotate"; "--quiet"; indexName])).
  destruct (run w _) as [e1 t1], (run w' _) as [e2 t2]. simpl in Hrun. subst t2.
  reflexivity.
Qed.

(** C6 (as the code behaves): the indexer cannot be started, [cmd.Run]
    returns the error of the launch, and the rebuild returns nil all the
    same; the handler answers [OK]. *)
Theorem reindex_hides_launch_failure :
  let w := mkWorld (logWith "") noIndexer [] in
  fst (run w (exec.Command indexerBinPath
                ["--config " ++ configPath; "--rotate"; "--quiet"; "main"]))
  = Some (ExecError "fork/exec /usr/bin/indexer: no such file or directory")
  /\ reindex w "main" = None
  /\ handleRequest w (net.mkConn (padded (typeOnly "reindex")) None)
     = mkHandled [toJson (mkResponse "OK" "")] None.
Proof.
  vm_compute. repeat split; reflexivity.
Qed.

(** ** The watermark *)

Lemma lookup_range (tab : list string) :
  forall i val m r,
    time.lookup tab i val = Some (m, r) -> i <= m < i + Z.of_nat (List.length tab).
Proof.
  induction tab as [| v tab IH]; intros i val m r H; simpl in H; [discriminate |].
  destruct (_ && _).
  - inversion H; subst. simpl List.length. lia.
  - apply IH in H. simpl List.length. lia.
Qed.

Lemma isDigit_digitVal (c : ascii) : isDigit c = true -> 0 <= digitVal c <= 9.
Proof. unfold isDigit, digitVal. lia. Qed.

Lemma getnum_range (s : string) (fixed : bool) (n : Z) (r : string) :
  time.getnum s fixed = Some (n, r) -> 0 <= n <= 99.
Proof.
  unfold time.getnum. destruct s as [| c0 s0]; [discriminate |].
  destruct (isDigit c0) eqn:H0; [| discriminate].
  apply isDigit_digitVal in H0.
  destruct s0 as [| c1 s1].
  - destruct fixed; [discriminate |]. intros H; inversion H; subst. lia.
  - destruct (isDigit c1) eqn:H1.
    + apply isDigit_digitVal in H1. intros H; inversion H; subst. lia.
    + destruct fixed; [discriminate |]. intros H; inversion H; subst. lia.
Qed.

Lemma element_inRange (s : time.std) (f f' : time.fields) (value r : string) :
  inRange f -> time.element s f value = inr (f', r) -> inRange f'.
Proof.
  unfold inRange. intros Hf H.
  destruct s; cbv beta iota delta [time.element] in H.
  - destruct (time.lookup _ _ _) as [[m rest] |]; inversion H; subst; assumption.
  - destruct (time.lookup _ _ _) as [[m rest] |] eqn:Hl; inversion H; subst.
    apply lookup_range in Hl. simpl in *. lia.
  - destruct (time.getnum _ _) as [[d rest] |]; inversion H; subst. simpl. assumption.
  - destruct (time.getnum _ _) as [[h rest] |]; [| discriminate].
    destruct (_ || _) eqn:Hr; inversion H; subst. simpl. lia.
  - destruct (time.getnum _ _) as [[m rest] |]; [| discriminate].
    destruct (_ || _) eqn:Hr; inversion H; subst. simpl. lia.
  - destruct (time.getnum _ _) as [[x rest] |]; [| discriminate].
    destruct (_ || _) eqn:Hr; [discriminate |].
    destruct rest as [| c0 [| c1 r1]]; try (inversion H; subst; simpl; lia).
    destruct (_ && _).
    + destruct (time.spanDigits _) as [ds rest']. inversion H; subst. simpl. lia.
    + inversion H; subst. simpl. lia.
  - destruct value as [| c0 v]; [discriminate |].
    destruct (_ && _); [| discriminate].
    destruct (strconv.digits _ _); inversion H; subst. simpl. assumption.
Qed.

Lemma chunks_inRange (l : time.Layout) :
  forall f value f' r,
    inRange f -> time.chunks l f value = inr (f', r) -> inRange f'.
Proof.
  induction l as [| [prefix s] l IH]; intros f value f' r Hf H; simpl in H.
  - inversion H; subst. assumption.
  - destruct (time.skip value prefix) as [value' |]; [| discriminate].
    destruct (time.element s f value') as [msg | [f1 value1]] eqn:He; [discriminate |].
    eapply IH; [| exact H]. eapply element_inRange; eauto.
Qed.

Lemma settle_inRange (f : time.fields) : inRange f -> inRange (time.settle f).
Proof.
  unfold inRange, time.settle. destruct f as [y m d h mi s ns]. simpl.
  destruct (m <? 0) eqn:Hm; [apply Z.ltb_lt in Hm | apply Z.ltb_ge in Hm]; lia.
Qed.

Lemma noFields_inRange : inRange time.noFields.
Proof. unfold inRange. simpl. lia. Qed.

Lemma daysSinceEpoch_after_2012 (y : Z) :
  2013 <= y -> time.daysSinceEpoch 2013 <= time.daysSinceEpoch y.
Proof.
  unfold time.daysSinceEpoch. intros H.
  change ((2013 - 1) / 4) with 503. change ((2013 - 1) / 100) with 20.
  change ((2013 - 1) / 400) with 5.
  pose proof (Z.div_mod (y - 1) 4 ltac:(lia)).
  pose proof (Z.mod_pos_bound (y - 1) 4 ltac:(lia)).
  pose proof (Z.div_mod (y - 1) 100 ltac:(lia)).
  pose proof (Z.mod_pos_bound (y - 1) 100 ltac:(lia)).
  pose proof (Z.div_mod (y - 1) 400 ltac:(lia)).
  pose proof (Z.mod_pos_bound (y - 1) 400 ltac:(lia)).
  lia.
Qed.

Lemma daysBefore_nonneg (m y : Z) : 0 <= time.daysBefore m y.
Proof.
  unfold time.daysBefore.
  repeat match goal with |- context [if ?b then _ else _] => destruct b end; lia.
Qed.

Lemma baseDate_value : baseDate = time.mkTime 63482608800 0.
Proof. vm_compute. reflexivity. Qed.

Lemma daysSinceEpoch_2013 : time.daysSinceEpoch 2013 = 734868.
Proof. vm_compute. reflexivity. Qed.

Lemma daysSinceEpoch_2012 : time.daysSinceEpoch 2012 = 734502.
Proof. vm_compute. reflexivity. Qed.

Lemma daysBefore_2012 :
  time.daysBefore 9 2012 = 244 /\ time.daysBefore 10 2012 = 274
  /\ time.daysBefore 11 2012 = 305 /\ time.daysBefore 12 2012 = 335.
Proof. vm_compute. repeat split; reflexivity. Qed.

(** A date and time later than the one of [baseDate] gives an instant
    after [baseDate]. *)
Lemma Date_after_baseDate (f : time.fields) :
  inRange f ->
  1 <= time.f_day f ->
  laterThanBase f ->
  time.After (time.Date (time.f_year f) (time.f_month f) (time.f_day f)
                (time.f_hour f) (time.f_min f) (time.f_sec f) (time.f_nsec f))
             baseDate = true.
Proof.
  unfold inRange, laterThanBase. destruct f as [y m d h mi s ns].
  cbn [time.f_year time.f_month time.f_day time.f_hour time.f_min time.f_sec time.f_nsec].
  intros (Hm & Hh & Hmi & Hs) Hd Hl.
  rewrite baseDate_value.
  unfold time.After, time.Date. cbn [time.sec time.nsec].
  apply orb_true_iff. left. apply Z.ltb_lt.
  destruct daysBefore_2012 as (H9 & H10 & H11 & H12).
  destruct Hl as [Hy | [Hy Hl]].
  - pose proof (daysSinceEpoch_after_2012 y ltac:(lia)) as He.
    rewrite daysSinceEpoch_2013 in He.
    pose proof (daysBefore_nonneg m y). lia.
  - subst y. rewrite daysSinceEpoch_2012.
    destruct Hl as [Hl | [Hmeq Hl]].
    + assert (Hc : m = 10 \/ m = 11 \/ m = 12) by lia.
      destruct Hc as [-> | [-> | ->]]; [rewrite H10 | rewrite H11 | rewrite H12]; lia.
    + subst m. rewrite H9. lia.
Qed.

Lemma stamp_timeFromLog (l : string) (f : time.fields) :
  stamp l = Some f ->
  timeFromLog l =
  (time.Date (time.f_year f) (time.f_month f) (time.f_day f)
     (time.f_hour f) (time.f_min f) (time.f_sec f) (time.f_nsec f), None)
  /\ inRange f /\ 1 <= time.f_day f.
Proof.
  unfold stamp, timeFromLog, time.Parse.
  destruct (1 <? _)%nat; [| discriminate].
  destruct (time.chunks dateFormat time.noFields _) as [e | [f0 rest]] eqn:Hc;
    [discriminate |].
  destruct rest; [| discriminate]. cbv zeta.
  destruct (_ || _) eqn:Hday; [discriminate |].
  intros H; inversion H; subst f. split; [reflexivity |]. split.
  - apply settle_inRange.
    eapply chunks_inRange; [apply noFields_inRange | exact Hc].
  - apply orb_false_iff in Hday. lia.
Qed.

(** Once the log is open and its size known, the watermark is read off
    the lines from the offset of the seek. *)
Lemma getLastTimestamp_eq (fs : os.FS) (filePath : string) :
  os.open_err (fs filePath) = None -> os.stat_err (fs filePath) = None ->
  getLastTimestamp fs filePath =
  match fst (bufio.tokens
               (drop (Z.to_nat (len (os.bytes (fs filePath))
                                + tailSeek (len (os.bytes (fs filePath)))))
                     (os.bytes (fs filePath))) EmptyString 0) with
  | [] => (None, baseDate)
  | first :: others =>
      match timeFromLog (nth (List.length (first :: others) - 1) (first :: others) "") with
      | (_, Some err) => (Some err, time.zero)
      | (lastDate, None) => (None, lastDate)
      end
  end.
Proof.
  intros Ho Hs. unfold getLastTimestamp, os.Open. rewrite Ho.
  unfold os.Stat. cbn [os.path]. rewrite Hs.
  unfold os.Seek. cbn [os.path].
  change (2 =? 0) with false. change (2 =? 1) with false. cbv iota.
  set (n := len (os.bytes (fs filePath))).
  pose proof (tailSeek_in_file n (len_nonneg _)) as Hn.
  destruct (n + tailSeek n <? 0) eqn:Hlt; [apply Z.ltb_lt in Hlt; lia |].
  unfold readLines, os.rest. cbn [os.path os.offset].
  destruct (bufio.tokens _ _ _) as [lines tooLong]. cbn [fst].
  destruct lines; reflexivity.
Qed.

(** C7: on an empty log the watermark is [baseDate], the instant
    2012-09-07 10:00:00 UTC, and every line that carries a date and time
    later than that is given an instant after the watermark. *)
Theorem empty_log_watermark (fs : os.FS) (filePath : string) :
  os.open_err (fs filePath) = None -> os.stat_err (fs filePath) = None ->
  os.bytes (fs filePath) = "" ->
  getLastTimestamp fs filePath = (None, baseDate)
  /\ baseDate = time.Date 2012 9 7 10 0 0 0
  /\ (forall l f, stamp l = Some f -> laterThanBase f ->
                  time.After (fst (timeFromLog l)) baseDate = true).
Proof.
  intros Ho Hs Hb. split; [| split].
  - rewrite getLastTimestamp_eq by assumption. rewrite Hb.
    vm_compute. reflexivity.
  - vm_compute. reflexivity.
  - intros l f Hst Hl. apply stamp_timeFromLog in Hst.
    destruct Hst as (Ht & Hr & Hd). rewrite Ht. cbn [fst].
    apply Date_after_baseDate; assumption.
Qed.

Lemma empty_log_watermark_witness :
  getLastTimestamp (logWith "") searchdLogPath = (None, baseDate)
  /\ baseDate = time.Date 2012 9 7 10 0 0 0
  /\ (forall l f, stamp l = Some f -> laterThanBase f ->
                  time.After (fst (timeFromLog l)) baseDate = true).
Proof.
  apply (empty_log_watermark (logWith "") searchdLogPath); reflexivity.
Defined.

(** A line of the day after the epoch, as an instance. *)
Lemma later_line_is_after_watermark :
  stamp "[Sat Sep 8 09:30:00.250 2012] rotating index: all indexes done"
  = Some (time.mkFields 2012 9 8 9 30 0 0)
  /\ time.After
       (fst (timeFromLog "[Sat Sep 8 09:30:00.250 2012] rotating index: all indexes done"))
       baseDate = true.
Proof. vm_compute. split; reflexivity. Qed.

(** * Further properties *)

(** ** The timestamp extractor, once more *)

(** X1: [timeFromLog] has two outcomes.  On a line without the prefix it
    returns the zero instant and the error of a missing prefix; on a line
    with the prefix it returns no error, whatever the text of the date. *)
Theorem timeFromLog_fails_only_without_prefix (l : string) :
  (regexp.FindStringSubmatch searchdLogLinePrefix l = []
   /\ timeFromLog l = (time.zero, Some (errors_New "Could not match a timestamp prefix")))
  \/ (List.length (regexp.FindStringSubmatch searchdLogLinePrefix l) = 4%nat
      /\ snd (timeFromLog l) = None).
Proof.
  pose proof (FindStringSubmatch_length searchdLogLinePrefix l) as Hlen.
  unfold timeFromLog.
  destruct (regexp.find searchdLogLinePrefix l 0) as [m |].
  - right. change (S (regexp.NumSubexp searchdLogLinePrefix)) with 4%nat in Hlen.
    split; [exact Hlen |]. rewrite Hlen. simpl.
    destruct (time.Parse _ _). reflexivity.
  - left. destruct (regexp.FindStringSubmatch searchdLogLinePrefix l); [| discriminate].
    split; reflexivity.
Qed.

Lemma timeFromLog_ignores_milliseconds_witness :
  timeFromLog "[Mon Jan 2 15:04:05.999 2012] a" = timeFromLog "x [Mon Jan 2 15:04:05.001 2012]".
Proof.
  apply (timeFromLog_ignores_milliseconds
           "[Mon Jan 2 15:04:05.999 2012] a" "x [Mon Jan 2 15:04:05.001 2012]").
  - vm_compute. lia.
  - vm_compute. lia.
  - vm_compute. reflexivity.
  - vm_compute. reflexivity.
Defined.

(** ** The poll, once more *)

(** X3: for an expression that is plain text, a poll returns an error
    exactly when the log cannot be opened or its size cannot be had; the
    error is that one, and the poll has then taken no turn.  The log is
    a file that keeps its bytes between the two calls and the seek, so
    that the seek, which stays inside the file, does not fail. *)
Theorem poll_fails_only_on_open_or_stat (fs : os.FS) (appends : list string)
  (filePath expression : string) (threshold : time.Time) (err : error) :
  plainText expression = true ->
  poll_err (waitForRotation fs appends filePath expression threshold) = Some err
  <-> (os.open_err (fs filePath) = Some err
       \/ (os.open_err (fs filePath) = None /\ os.stat_err (fs filePath) = Some err))
      /\ poll_turns (waitForRotation fs appends filePath expression threshold) = [].
Proof.
  intros _. split.
  - intros H. split; [eapply waitForRotation_errors; exact H |].
    destruct (poll_turns (waitForRotation fs appends filePath expression threshold))
      as [| t ts] eqn:Ht; [reflexivity |].
    assert (Hne : poll_turns (waitForRotation fs appends filePath expression threshold) <> [])
      by (rewrite Ht; discriminate).
    apply waitForRotation_turns_open in Hne. destruct Hne as [Ho Hs].
    rewrite waitForRotation_eq in H by assumption.
    rewrite pollLoop_no_error in H. discriminate.
  - intros [[Ho | [Ho Hs]] _]; unfold waitForRotation, os.Open, os.Stat.
    + rewrite Ho. reflexivity.
    + rewrite Ho. cbn [os.path]. rewrite Hs. reflexivity.
Qed.

Lemma poll_fails_only_on_open_or_stat_witness :
  let fs := fun _ : string =>
              os.mkNode None (Some (PathError "stat" searchdLogPath "input/output error"))
                        (line "no timestamp here") in
  let err := PathError "stat" searchdLogPath "input/output error" in
  poll_err (waitForRotation fs [line "x"] searchdLogPath marker baseDate) = Some err
  <-> (os.open_err (fs searchdLogPath) = Some err
       \/ (os.open_err (fs searchdLogPath) = None /\ os.stat_err (fs searchdLogPath) = Some err))
      /\ poll_turns (waitForRotation fs [line "x"] searchdLogPath marker baseDate) = [].
Proof.
  apply (poll_fails_only_on_open_or_stat
           (fun _ : string =>
              os.mkNode None (Some (PathError "stat" searchdLogPath "input/output error"))
                        (line "no timestamp here"))
           [line "x"] searchdLogPath marker baseDate
           (PathError "stat" searchdLogPath "input/output error")).
  vm_compute. reflexivity.
Defined.

(** ** The rebuild, once more *)

(** [reindex] is [reindexOn] for an indexer that only adds to the log. *)
Lemma reindex_reindexOn (w : World) (indexName : string) :
  reindex w indexName =
  reindexOn (fs w)
    (fun cmd => (fst (run w cmd), os.append (fs w) searchdLogPath (snd (run w cmd))))
    (appends w) indexName.
Proof.
  unfold reindex, reindexOn.
  destruct (getLastTimestamp (fs w) searchdLogPath) as [[e |] lastDate]; [reflexivity |].
  cbv beta. destruct (run w _) as [err text]. reflexivity.
Qed.

(** X4: the errors of a rebuild are those of its own file operations.
    Whatever the run of the indexer does to the file system, the rebuild
    returns the error of reading the watermark; failing that, the error
    of opening the log for the poll; failing that, the error of asking
    for its size; and nil otherwise.  The error of the run, the index
    name and a poll that runs out of turns never make it fail.  From the
    return of the run on, the log only grows. *)
Theorem reindex_fails_only_on_the_log (fs : os.FS)
  (run : exec.Cmd -> option error * os.FS)
  (appends : list string) (indexName : string) :
  let cmd := exec.Command indexerBinPath
               ["--config " ++ configPath; "--rotate"; "--quiet"; indexName] in
  reindexOn fs run appends indexName =
  match fst (getLastTimestamp fs searchdLogPath) with
  | Some err => Some err
  | None =>
      match os.open_err (snd (run cmd) searchdLogPath) with
      | Some err => Some err
      | None => os.stat_err (snd (run cmd) searchdLogPath)
      end
  end.
Proof.
  intros cmd. unfold reindexOn. fold cmd.
  destruct (getLastTimestamp fs searchdLogPath) as [[e |] lastDate]; [reflexivity |].
  cbn [fst]. destruct (run cmd) as [err fs']. cbn [snd].
  destruct (poll_err (waitForRotation fs' appends searchdLogPath marker lastDate))
    as [e |] eqn:Hp.
  - apply waitForRotation_errors in Hp.
    destruct Hp as [Ho | [Ho Hs]]; rewrite Ho; [reflexivity | rewrite Hs; reflexivity].
  - destruct (os.open_err (fs' searchdLogPath)) as [eo |] eqn:Ho.
    + unfold waitForRotation, os.Open in Hp. rewrite Ho in Hp. discriminate.
    + destruct (os.stat_err (fs' searchdLogPath)) as [es |] eqn:Hs; [| reflexivity].
      unfold waitForRotation, os.Open, os.Stat in Hp. rewrite Ho in Hp.
      cbn [os.path] in Hp. rewrite Hs in Hp. discriminate.
Qed.

(** The log is removed while the indexer runs: the rebuild returns the
    error of opening it. *)
Lemma log_removed_during_the_run :
  reindexOn (logWith "")
    (fun _ => (None, fun _ => os.mkNode
                 (Some (PathError "open" searchdLogPath "no such file or directory"))
                 None ""))
    [] "main"
  = Some (PathError "open" searchdLogPath "no such file or directory").
Proof. vm_compute. reflexivity. Qed.

(** ** The connection handler, once more *)

(** X6: a handler whose read fails writes nothing and returns the error
    of the read; every other handler writes one message and no more. *)
Theorem handler_writes_at_most_once (w : World) (conn : net.Conn) :
  match net.read_err conn with
  | Some err => handleRequest w conn = mkHandled [] (Some err)
  | None => List.length (written (handleRequest w conn)) = 1%nat
  end.
Proof.
  unfold handleRequest, net.Read.
  destruct (net.read_err conn) as [e |]; [reflexivity |].
  destruct (json.Unmarshal _ _) as [request [err |]]; [reflexivity |].
  destruct (String.eqb (Type_ request) "ping"); [reflexivity |].
  destruct (negb (String.eqb (Type_ request) "reindex")); [reflexivity |].
  destruct (reindex w (Index request)); reflexivity.
Qed.

Lemma take_take (n : nat) (s : string) : take n (take n s) = take n s.
Proof.
  revert s. induction n as [| n IH]; intros [| a s]; simpl; auto. now rewrite IH.
Qed.

(** X7: the handler sees the first 1024 bytes of what the peer sent and
    nothing of the rest. *)
Theorem handler_reads_1024_bytes (w : World) (sent : string) (err : option error) :
  handleRequest w (net.mkConn sent err) = handleRequest w (net.mkConn (take 1024 sent) err).
Proof.
  unfold handleRequest, net.Read. cbn [net.read_err net.incoming].
  assert (Hl : String.length (repeat_byte NUL 1024) = 1024%nat) by (vm_compute; reflexivity).
  rewrite Hl, take_take. reflexivity.
Qed.

Lemma short_request_is_refused_witness :
  exists e,
    handleRequest (mkWorld (logWith "") noIndexer [])
                  (net.mkConn (typeOnly "reindex") None) =
    mkHandled [toJson (mkResponse "" ("Could not decode the request JSON: " ++ errorText e))]
              (Some e).
Proof.
  apply (short_request_is_refused (mkWorld (logWith "") noIndexer [])
           (net.mkConn (typeOnly "reindex") None)).
  - reflexivity.
  - vm_compute. lia.
Defined.

(** ** The keep-alive settings *)




(** A value that does not fit in 32 bits is not the value set. *)
Lemma setKeepAlive_cuts_to_32_bits :
  exists tcp',
    setKeepAlive willingKernel (TCPConn freshSocket) 4294967297 3 5 = (TCPConn tcp', None)
    /\ syscall.option_ tcp' syscall.IPPROTO_TCP syscall.TCP_KEEPIDLE = Some 1.
Proof. eexists. split; reflexivity. Qed.

(** X9: [setKeepAlive] undoes nothing, whether it fails or not.  On a
    TCP connection the result is a TCP connection; the keep-alive switch
    is on if it was on or if [SetKeepAlive] succeeded; an option that
    held a value still holds one; and the idle time is set as soon as
    the calls up to its own have succeeded, whatever the later ones do. *)
Theorem setKeepAlive_keeps_what_it_set (k : syscall.Kernel) (tcp : syscall.Socket)
  (afterIdleSecs intervalSecs maxFails : Z) :
  exists tcp',
    fst (setKeepAlive k (TCPConn tcp) afterIdleSecs intervalSecs maxFails) = TCPConn tcp'
    /\ (syscall.keepAlive tcp = true -> syscall.keepAlive tcp' = true)
    /\ (syscall.SetKeepAlive_err k = None -> syscall.keepAlive tcp' = true)
    /\ (forall level opt, syscall.option_ tcp level opt <> None ->
                          syscall.option_ tcp' level opt <> None)
    /\ (syscall.SetKeepAlive_err k = None -> syscall.File_err k = None ->
        syscall.Setsockopt_err k syscall.IPPROTO_TCP syscall.TCP_KEEPIDLE
          (wrap32 afterIdleSecs) = None ->
        syscall.option_ tcp' syscall.IPPROTO_TCP syscall.TCP_KEEPIDLE
        = Some (wrap32 afterIdleSecs)).
Proof.
  unfold setKeepAlive, syscall.SetsockoptInt. cbv zeta.
  destruct (syscall.SetKeepAlive_err k) as [e0 |].
  { exists tcp. cbn [fst]. repeat split; auto; discriminate. }
  destruct (syscall.File_err k) as [e1 |].
  { eexists. cbn [fst]. split; [reflexivity |]. cbn [syscall.keepAlive syscall.option_].
    repeat split; auto; discriminate. }
  destruct (syscall.Setsockopt_err k _ _ (wrap32 afterIdleSecs)) as [e2 |].
  { eexists. cbn [fst]. split; [reflexivity |]. cbn [syscall.keepAlive syscall.option_].
    repeat split; auto; discriminate. }
  destruct (syscall.Setsockopt_err k _ _ (wrap32 intervalSecs)) as [e3 |];
    [| destruct (syscall.Setsockopt_err k _ _ (wrap32 maxFails)) as [e4 |]];
    (eexists; cbn [fst]; split; [reflexivity |];
     cbn [syscall.keepAlive syscall.option_];
     repeat split; auto;
     try (intros level opt Hs;
          repeat match goal with
                 | |- context [if ?b then _ else _] => destruct b
                 end; try discriminate; exact Hs)).
Qed.

(** ** [readLines], once more *)

Lemma tokens_one_line (l : string) :
  forall cur n rest,
    contains_byte LF l = false -> n = len cur -> len cur + len l < 65536 ->
    bufio.tokens (l ++ String LF rest) cur n =
    (bufio.dropCR (cur ++ l) :: fst (bufio.tokens rest "" 0),
     snd (bufio.tokens rest "" 0)).
Proof.
  induction l as [| a l IH]; intros cur n rest Hlf Hn Hlen.
  - simpl. change (eqc LF LF) with true. cbv iota.
    rewrite append_empty_r. destruct (bufio.tokens rest "" 0). reflexivity.
  - simpl in Hlf. apply orb_false_iff in Hlf. destruct Hlf as [Ha Hlf].
    simpl. rewrite Ha.
    unfold len in *. simpl String.length in Hlen.
    destruct (bufio.MaxScanTokenSize <=? n + 1) eqn:Hmax.
    { apply Z.leb_le in Hmax. unfold bufio.MaxScanTokenSize in Hmax. lia. }
    rewrite IH; [| assumption | | ].
    + rewrite append_assoc. reflexivity.
    + rewrite length_append. simpl. lia.
    + rewrite length_append. simpl. lia.
Qed.

Lemma tokens_last_line (l : string) :
  forall cur n,
    contains_byte LF l = false -> n = len cur -> len cur + len l < 65536 ->
    bufio.tokens l cur n =
    (match cur ++ l with
     | EmptyString => []
     | _ => [bufio.dropCR (cur ++ l)]
     end, false).
Proof.
  induction l as [| a l IH]; intros cur n Hlf Hn Hlen.
  - simpl. rewrite append_empty_r. destruct cur; reflexivity.
  - simpl in Hlf. apply orb_false_iff in Hlf. destruct Hlf as [Ha Hlf].
    simpl. rewrite Ha.
    unfold len in *. simpl String.length in Hlen.
    destruct (bufio.MaxScanTokenSize <=? n + 1) eqn:Hmax.
    { apply Z.leb_le in Hmax. unfold bufio.MaxScanTokenSize in Hmax. lia. }
    rewrite IH; [| assumption | | ].
    + rewrite append_assoc. reflexivity.
    + rewrite length_append. simpl. lia.
    + rewrite length_append. simpl. lia.
Qed.

Lemma tokens_unlines (ls : list string) (l : string) :
  Forall (fun x => contains_byte LF x = false /\ len x < 65536) (l :: ls) ->
  bufio.tokens (unlines ls ++ l) "" 0 =
  ((map bufio.dropCR ls ++ match l with
                           | EmptyString => []
                           | _ => [bufio.dropCR l]
                           end)%list, false).
Proof.
  intros H. inversion H as [| x xs [Hl Hlen] Hls]; subst. clear H.
  induction ls as [| l0 ls IH].
  - simpl. apply (tokens_last_line l "" 0); [assumption | reflexivity | exact Hlen].
  - inversion Hls as [| x xs [H0 Hlen0] Hrest]; subst.
    simpl unlines. unfold line. rewrite !append_assoc. simpl (str LF ++ _).
    rewrite (tokens_one_line l0 "" 0); [| assumption | reflexivity | exact Hlen0].
    rewrite (IH Hrest). reflexivity.
Qed.

(** X10: [readLines] gives back the lines that were written.  When the
    file is a sequence of lines, each ended by a line feed, and maybe a
    last text without one, and no line reaches 65536 bytes, the result
    is those lines in order, each without one carriage return at its
    end, followed by the last text if it is not empty; the scanner
    reports no error. *)
Theorem readLines_gives_the_lines (fs : os.FS) (filePath : string)
  (ls : list string) (l : string) :
  os.bytes (fs filePath) = unlines ls ++ l ->
  Forall (fun x => contains_byte LF x = false /\ len x < 65536) (l :: ls) ->
  readLines fs (os.mkFile filePath 0) =
  ((map bufio.dropCR ls ++ match l with
                           | EmptyString => []
                           | _ => [bufio.dropCR l]
                           end)%list, None).
Proof.
  intros Hb H. unfold readLines, os.rest. cbn [os.path os.offset].
  rewrite Hb. change (Z.to_nat 0) with O.
  replace (drop 0 (unlines ls ++ l)) with (unlines ls ++ l)
    by (destruct (unlines ls ++ l); reflexivity).
  rewrite (tokens_unlines ls l H). reflexivity.
Qed.

Lemma readLines_gives_the_lines_witness :
  readLines (logWith (unlines ["first"; "second" ++ str CR; ""] ++ "last"))
            (os.mkFile searchdLogPath 0) =
  (["first"; "second"; ""; "last"], None).
Proof.
  apply (readLines_gives_the_lines
           (logWith (unlines ["first"; "second" ++ str CR; ""] ++ "last"))
           searchdLogPath ["first"; "second" ++ str CR; ""] "last").
  - reflexivity.
  - repeat constructor.
Defined.

(** ** The watermark, once more *)

(** X11: the watermark of a log of more than 1024 bytes is read off its
    last 1024 bytes: two logs that end in the same 1024 bytes give the
    same result. *)
Theorem watermark_reads_the_last_1024_bytes (fs fs' : os.FS) (filePath : string)
  (older older' tail : string) :
  os.open_err (fs filePath) = None -> os.stat_err (fs filePath) = None ->
  os.open_err (fs' filePath) = None -> os.stat_err (fs' filePath) = None ->
  os.bytes (fs filePath) = older ++ tail ->
  os.bytes (fs' filePath) = older' ++ tail ->
  String.length tail = 1024%nat -> older <> "" -> older' <> "" ->
  getLastTimestamp fs filePath = getLastTimestamp fs' filePath.
Proof.
  intros Ho Hs Ho' Hs' Hb Hb' Ht Hn Hn'.
  rewrite !getLastTimestamp_eq by assumption. rewrite Hb, Hb'.
  assert (Hd : forall o, o <> "" ->
            drop (Z.to_nat (len (o ++ tail) + tailSeek (len (o ++ tail)))) (o ++ tail) = tail).
  { intros o Ho0. unfold len. rewrite length_append, Ht.
    assert (0 < String.length o)%nat by (destruct o; [congruence | simpl; lia]).
    unfold tailSeek.
    replace (Z.to_nat _) with (String.length o) by lia.
    apply drop_append. }
  rewrite (Hd older Hn), (Hd older' Hn'). reflexivity.
Qed.

Lemma watermark_reads_the_last_1024_bytes_witness :
  let tail := repeat_byte "-" 960 ++ str LF
              ++ line "[Mon Jan 2 15:04:05.100 2012] rotating index: all indexes done" in
  getLastTimestamp (logWith ("[" ++ tail)) searchdLogPath
  = getLastTimestamp (logWith (line "[Sun Jan 1 00:00:00.000 2012] older" ++ tail))
                     searchdLogPath.
Proof.
  apply (watermark_reads_the_last_1024_bytes
           (logWith ("[" ++ repeat_byte "-" 960 ++ str LF
              ++ line "[Mon Jan 2 15:04:05.100 2012] rotating index: all indexes done"))
           (logWith (line "[Sun Jan 1 00:00:00.000 2012] older" ++ repeat_byte "-" 960 ++ str LF
              ++ line "[Mon Jan 2 15:04:05.100 2012] rotating index: all indexes done"))
           searchdLogPath "[" (line "[Sun Jan 1 00:00:00.000 2012] older")
           (repeat_byte "-" 960 ++ str LF
              ++ line "[Mon Jan 2 15:04:05.100 2012] rotating index: all indexes done"));
    try reflexivity; try discriminate.
Defined.

(** ** A log that does not grow *)

Lemma firstScan_empty : bufio.firstScan bufio.bufSizes "" = ("", O, false).
Proof. vm_compute. reflexivity. Qed.

(** A rest shorter than the first buffer is read in one go. *)
Lemma firstScan_short (avail : string) :
  len avail < bufio.startBufSize ->
  snd (fst (bufio.firstScan bufio.bufSizes avail)) = String.length avail.
Proof.
  intros H. unfold bufio.bufSizes. cbn [bufio.firstScan].
  assert (Ht : take (Z.to_nat bufio.startBufSize) avail = avail)
    by (apply take_all; unfold len in H; lia).
  rewrite Ht. apply Z.ltb_lt in H. rewrite H.
  destruct (bufio.IndexByte avail LF); reflexivity.
Qed.

Lemma inspect_empty (re : regexp.Regexp) (threshold : time.Time) :
  inspect re threshold "" = Continue.
Proof. reflexivity. Qed.

(** At the end of a log that gains nothing, every turn finds nothing. *)
Lemma pollLoop_at_end (re : regexp.Regexp) (threshold : time.Time) (n : nat) :
  forall fs file,
    os.rest fs file = "" ->
    forall t, In t (poll_turns (pollLoop n re threshold fs file [])) ->
              t = (os.offset file, "").
Proof.
  induction n as [| n IH]; intros fs file Hrest t Ht; [contradiction |].
  rewrite pollLoop_S in Ht. cbn [hd tl] in Ht.
  unfold os.rest in Hrest.
  assert (Hl : firstLine (os.bytes (fs (os.path file)) ++ "") (os.offset file) = "").
  { unfold firstLine. rewrite append_empty_r, Hrest, firstScan_empty. reflexivity. }
  assert (Hk : taken (os.bytes (fs (os.path file)) ++ "") (os.offset file) = 0).
  { unfold taken. rewrite append_empty_r, Hrest, firstScan_empty. reflexivity. }
  rewrite Hl, Hk, inspect_empty in Ht. unfold turn in Ht. cbn [poll_turns] in Ht.
  destruct Ht as [Ht | Ht]; [congruence |].
  apply IH in Ht.
  - cbn [os.offset] in Ht. rewrite Z.add_0_r in Ht. exact Ht.
  - unfold os.rest. cbn [os.path os.offset]. rewrite bytes_append, append_empty_r.
    rewrite Z.add_0_r. exact Hrest.
Qed.

(** X12: when the log gains nothing during the poll, the first turn
    reads all there is from the start of the window, and every later
    turn starts at the end of the log and finds no line: only the first
    turn can end the poll. *)
Theorem still_log_is_read_once (fs : os.FS) (filePath expression : string)
  (threshold : time.Time) (i : nat) (start : Z) (l : string) :
  let p := waitForRotation fs [] filePath expression threshold in
  nth_error (poll_turns p) (S i) = Some (start, l) ->
  l = "" /\ start = len (os.bytes (fs filePath))
  /\ stops (rotationPattern expression) threshold l = false.
Proof.
  intros p Hn.
  assert (Hopen : poll_turns p <> []) by (destruct (poll_turns p); discriminate).
  apply waitForRotation_turns_open in Hopen. destruct Hopen as [Ho Hs].
  subst p. rewrite waitForRotation_eq in Hn by assumption.
  set (data := os.bytes (fs filePath)) in *.
  set (n := len data) in *.
  pose proof (tailSeek_in_file n (len_nonneg _)) as Hw.
  rewrite pollLoop_S in Hn. cbn [hd tl os.path os.offset] in Hn. fold data in Hn.
  rewrite append_empty_r in Hn.
  assert (Hk : taken data (n + tailSeek n) = n - (n + tailSeek n)).
  { unfold taken. rewrite firstScan_short.
    - rewrite length_drop. unfold n, len in *. lia.
    - unfold len. rewrite length_drop. unfold bufio.startBufSize, n, len in *. lia. }
  rewrite Hk in Hn.
  replace (n + tailSeek n + (n - (n + tailSeek n))) with n in Hn by lia.
  assert (Hin : In (start, l)
                  (poll_turns (pollLoop 9 (rotationPattern expression) threshold
                                 (os.append fs filePath "") (os.mkFile filePath n) []))).
  { destruct (inspect _ _ _); cbn [poll_turns turn nth_error] in Hn;
      try (destruct i; discriminate).
    eapply nth_error_In. exact Hn. }
  apply pollLoop_at_end in Hin.
  - inversion Hin; subst. repeat split.
  - unfold os.rest. cbn [os.path os.offset]. rewrite bytes_append, append_empty_r.
    apply drop_all. unfold n, len, data. lia.
Qed.

Lemma still_log_is_read_once_witness :
  let p := waitForRotation
             (logWith (line "[Mon Jan 2 15:04:05.100 2012] rotating index 'main': success"))
             [] searchdLogPath marker baseDate in
  "" = "" /\ 61 = len (os.bytes (logWith
                 (line "[Mon Jan 2 15:04:05.100 2012] rotating index 'main': success")
                 searchdLogPath))
  /\ stops (rotationPattern marker) baseDate "" = false.
Proof.
  apply (still_log_is_read_once
           (logWith (line "[Mon Jan 2 15:04:05.100 2012] rotating index 'main': success"))
           searchdLogPath marker baseDate 0 61 "").
  vm_compute. reflexivity.
Defined.

(** ** What a line must hold to end the poll *)

(** The continuation of a match is called on a rest of the text. *)
Lemma star_rest (p : ascii -> bool) (s : string) :
  forall pos c k res,
    regexp.star p s pos c k = Some res ->
    exists pre s' pos' c', s = pre ++ s' /\ k s' pos' c' = Some res.
Proof.
  induction s as [| a s IH]; simpl; intros pos c k res H.
  - exists "", "", pos, c. auto.
  - destruct (p a).
    + destruct (regexp.star p s (S pos) c k) as [r |] eqn:E.
      * inversion H; subst r. apply IH in E.
        destruct E as (pre & s' & pos' & c' & Hs & Hk).
        exists (String a pre), s', pos', c'. subst s. auto.
      * exists "", (String a s), pos, c. auto.
    + exists "", (String a s), pos, c. auto.
Qed.

Lemma run_rest (r : regexp.Regexp) :
  forall s pos c k res,
    regexp.run r s pos c k = Some res ->
    exists pre s' pos' c', s = pre ++ s' /\ k s' pos' c' = Some res.
Proof.
  induction r as [p | p | r1 IH1 r2 IH2 | i r IH |]; simpl; intros s pos c k res H.
  - destruct s as [| a s]; [discriminate |]. destruct (p a); [| discriminate].
    exists (str a), s, (S pos), c. auto.
  - eapply star_rest; eauto.
  - apply IH1 in H. destruct H as (pre1 & s1 & pos1 & c1 & Hs1 & H).
    apply IH2 in H. destruct H as (pre2 & s2 & pos2 & c2 & Hs2 & H).
    exists (pre1 ++ pre2), s2, pos2, c2. subst. rewrite append_assoc. auto.
  - apply IH in H. destruct H as (pre & s' & pos' & c' & Hs & H).
    exists pre, s', pos', ((i, (pos, pos')) :: c'). auto.
  - exists "", s, pos, c. auto.
Qed.

(** A text read as a pattern matches itself only. *)
Lemma run_literal (text : string) :
  forall s pos c k res,
    regexp.run (regexp.literal text) s pos c k = Some res ->
    exists s' pos' c', s = text ++ s' /\ k s' pos' c' = Some res.
Proof.
  induction text as [| a text IH]; simpl; intros s pos c k res H.
  - exists s, pos, c. auto.
  - destruct s as [| b s]; [discriminate |].
    destruct (eqc a b) eqn:Hab; [| discriminate].
    apply Ascii.eqb_eq in Hab. subst b.
    apply IH in H. destruct H as (s' & pos' & c' & Hs & H).
    exists s', pos', c'. subst. auto.
Qed.

Lemma run_cat_app (P Q : list regexp.Regexp) :
  forall s pos c k res,
    regexp.run (regexp.cat (P ++ Q)) s pos c k = Some res ->
    exists pre s' pos' c',
      s = pre ++ s' /\ regexp.run (regexp.cat Q) s' pos' c' k = Some res.
Proof.
  induction P as [| a P IH]; intros s pos c k res H.
  - exists "", s, pos, c. auto.
  - simpl in H. apply run_rest in H. destruct H as (pre1 & s1 & pos1 & c1 & Hs1 & H).
    apply IH in H. destruct H as (pre2 & s2 & pos2 & c2 & Hs2 & H).
    exists (pre1 ++ pre2), s2, pos2, c2. subst. rewrite append_assoc. auto.
Qed.

Lemma find_rest (r : regexp.Regexp) (s : string) :
  forall pos m,
    regexp.find r s pos = Some m ->
    exists pre s' pos' res,
      s = pre ++ s' /\ regexp.run r s' pos' [] regexp.accept = Some res.
Proof.
  induction s as [| a s IH]; intros pos m H; rewrite find_eq in H.
  - destruct (regexp.run r "" pos [] regexp.accept) as [res |] eqn:E; [| discriminate].
    exists "", "", pos, res. auto.
  - destruct (regexp.run r (String a s) pos [] regexp.accept) as [res |] eqn:E.
    + exists "", (String a s), pos, res. auto.
    + apply IH in H. destruct H as (pre & s' & pos' & res & Hs & H).
      exists (String a pre), s', pos', res. subst. auto.
Qed.

Lemma stops_has_timestamp (expression : string) (threshold : time.Time) (l : string) :
  stops (rotationPattern expression) threshold l = true -> snd (timeFromLog l) = None.
Proof.
  unfold stops. intros H.
  apply andb_true_iff in H. destruct H as [H _].
  apply andb_true_iff in H. destruct H as [_ H].
  apply rotation_match_has_prefix in H.
  destruct (snd (timeFromLog l)) eqn:E; [| reflexivity].
  assert (He : snd (timeFromLog l) <> None) by (rewrite E; discriminate).
  apply timeFromLog_error_iff in He. congruence.
Qed.

(** The bytes that a star has taken satisfy its class. *)
Lemma star_rest_class (p : ascii -> bool) (s : string) :
  forall pos c k res,
    regexp.star p s pos c k = Some res ->
    exists pre s' pos' c',
      s = pre ++ s' /\ forallb p (list_ascii_of_string pre) = true
      /\ k s' pos' c' = Some res.
Proof.
  induction s as [| a s IH]; simpl; intros pos c k res H.
  - exists "", "", pos, c. auto.
  - destruct (p a) eqn:Hp.
    + destruct (regexp.star p s (S pos) c k) as [r |] eqn:E.
      * inversion H; subst r. apply IH in E.
        destruct E as (pre & s' & pos' & c' & Hs & Hc & Hk).
        exists (String a pre), s', pos', c'. subst s. simpl. rewrite Hp. auto.
      * exists "", (String a s), pos, c. auto.
    + exists "", (String a s), pos, c. auto.
Qed.

Lemma class_excludes (x : ascii) (s : string) :
  forallb (fun c => negb (eqc c x)) (list_ascii_of_string s) = true ->
  contains_byte x s = false.
Proof.
  induction s as [| a s IH]; simpl; intros H; [reflexivity |].
  apply andb_true_iff in H. destruct H as [Ha Hs].
  apply negb_true_iff in Ha. rewrite Ha, (IH Hs). reflexivity.
Qed.

Lemma run_byte (p : ascii -> bool) (s : string) (pos : nat) (c : regexp.Caps)
  (k : regexp.Cont) (res : nat * regexp.Caps) :
  regexp.run (regexp.Byte p) s pos c k = Some res ->
  exists a s', s = String a s' /\ p a = true /\ k s' (S pos) c = Some res.
Proof.
  simpl. destruct s as [| a s]; [discriminate |].
  destruct (p a) eqn:Hp; [| discriminate]. intros H. exists a, s. auto.
Qed.

Lemma run_cat (r1 r2 : regexp.Regexp) (s : string) (pos : nat) (c : regexp.Caps)
  (k : regexp.Cont) :
  regexp.run (regexp.Cat r1 r2) s pos c k
  = regexp.run r1 s pos c (fun s' pos' c' => regexp.run r2 s' pos' c' k).
Proof. reflexivity. Qed.

Lemma run_group (i : nat) (r : regexp.Regexp) (s : string) (pos : nat) (c : regexp.Caps)
  (k : regexp.Cont) :
  regexp.run (regexp.Group i r) s pos c k
  = regexp.run r s pos c (fun s' pos' c' => k s' pos' ((i, (pos, pos')) :: c')).
Proof. reflexivity. Qed.

Lemma run_star (p : ascii -> bool) (s : string) (pos : nat) (c : regexp.Caps)
  (k : regexp.Cont) :
  regexp.run (regexp.Star p) s pos c k = regexp.star p s pos c k.
Proof. reflexivity. Qed.

Lemma run_empty (s : string) (pos : nat) (c : regexp.Caps) (k : regexp.Cont) :
  regexp.run regexp.Empty s pos c k = k s pos c.
Proof. reflexivity. Qed.

Ltac step_byte H a s E P :=
  rewrite run_cat in H; apply run_byte in H;
  destruct H as (a & s & E & P & H); cbv beta in H.

Lemma lit_byte (x a : ascii) : eqc x a = true -> a = x.
Proof. intros H. apply Ascii.eqb_eq in H. congruence. Qed.

(** A match of the rotation pattern, from its start: a timestamp prefix,
    bytes of one line, the expression. *)
Lemma run_rotationPattern (expression s : string) (pos : nat) (c : regexp.Caps)
  (res : nat * regexp.Caps) :
  regexp.run (rotationPattern expression) s pos c regexp.accept = Some res ->
  exists stamp between after,
    s = stamp ++ between ++ expression ++ after
    /\ stampText stamp /\ contains_byte LF between = false.
Proof.
  unfold rotationPattern, prefixPattern, regexp.lit, regexp.digit, regexp.space,
    regexp.dotStar.
  cbn [app regexp.cat fold_right].
  intros H.
  step_byte H b0 s0 E0 P0.
  rewrite run_cat, run_group, run_star in H.
  apply star_rest_class in H. destruct H as (d & s1 & pos1 & c1 & E1 & Pd & H).
  cbv beta in H.
  step_byte H b1 s2 E2 P1.
  rewrite run_cat, run_group in H.
  step_byte H m1 s3 E3 Pm1. step_byte H m2 s4 E4 Pm2. step_byte H m3 s5 E5 Pm3.
  rewrite run_empty in H. cbv beta in H.
  step_byte H sp s6 E6 Psp.
  rewrite run_cat, run_group in H.
  step_byte H y1 s7 E7 Py1. step_byte H y2 s8 E8 Py2.
  step_byte H y3 s9 E9 Py3. step_byte H y4 s10 E10 Py4.
  rewrite run_empty in H. cbv beta in H.
  step_byte H b2 s11 E11 P2.
  rewrite run_cat, run_star in H.
  apply star_rest_class in H. destruct H as (bt & s12 & pos12 & c12 & E12 & Pbt & H).
  cbv beta in H. rewrite run_cat in H.
  apply run_literal in H. destruct H as (after & pos' & c' & E13 & _).
  apply lit_byte in P0, P1, P2. subst.
  exists ("[" ++ d ++ "."
          ++ String m1 (String m2 (String m3 (String sp
               (String y1 (String y2 (String y3 (String y4 "]")))))))),
    bt, after.
  split.
  - rewrite !append_assoc. reflexivity.
  - split; [| apply class_excludes; exact Pbt].
    exists d, m1, m2, m3, sp, y1, y2, y3, y4.
    split; [reflexivity |].
    split; [apply class_excludes; exact Pd |].
    repeat split; assumption.
Qed.

(** X13: a line ends the poll only if it holds a timestamp prefix and,
    after it on the same line, the text of the expression.  The
    expression is a plain text, which the pattern of the program reads as
    itself. *)
Theorem poll_stops_only_on_the_marker (expression : string) (threshold : time.Time)
  (l : string) :
  plainText expression = true ->
  stops (rotationPattern expression) threshold l = true ->
  (exists before stamp between after,
     l = before ++ stamp ++ between ++ expression ++ after
     /\ stampText stamp /\ contains_byte LF between = false)
  /\ snd (timeFromLog l) = None.
Proof.
  intros _ Hst. split; [| eapply stops_has_timestamp; exact Hst].
  unfold stops in Hst.
  apply andb_true_iff in Hst. destruct Hst as [H _].
  apply andb_true_iff in H. destruct H as [_ H].
  rewrite FindStringSubmatch_length in H.
  destruct (regexp.find (rotationPattern expression) l 0) as [m |] eqn:Hf;
    [| discriminate].
  apply find_rest in Hf. destruct Hf as (pre & s' & pos' & res & Hs & Hr).
  apply run_rotationPattern in Hr.
  destruct Hr as (stamp & between & after & Hs' & Hstamp & Hb).
  exists pre, stamp, between, after. subst. auto.
Qed.

Lemma poll_stops_only_on_the_marker_witness :
  (exists before stamp between after,
     "[Mon Jan 2 15:04:10.000 2013] rotating index: all indexes done."
     = before ++ stamp ++ between ++ marker ++ after
     /\ stampText stamp /\ contains_byte LF between = false)
  /\ snd (timeFromLog "[Mon Jan 2 15:04:10.000 2013] rotating index: all indexes done.")
     = None.
Proof.
  apply (poll_stops_only_on_the_marker marker baseDate
           "[Mon Jan 2 15:04:10.000 2013] rotating index: all indexes done.").
  - vm_compute. reflexivity.
  - vm_compute. reflexivity.
Defined.

(** The expression before the timestamp does not end the poll. *)
Lemma marker_before_the_timestamp :
  stops (rotationPattern marker) baseDate
    "rotating index: all indexes done [Mon Jan 2 15:04:10.000 2013]" = false.
Proof. vm_compute. reflexivity. Qed.

(** ** A completion line that arrives during the poll *)

Lemma IndexByte_line (l : string) :
  forall n rest,
    contains_byte LF l = false -> (String.length l < n)%nat ->
    bufio.IndexByte (take n (l ++ String LF rest)) LF = Some (String.length l)
    /\ take (String.length l) (take n (l ++ String LF rest)) = l.
Proof.
  induction l as [| a l IH]; intros n rest Hlf Hn.
  - destruct n; [simpl in Hn; lia |]. simpl. split; reflexivity.
  - destruct n; [simpl in Hn; lia |].
    simpl in Hlf. apply orb_false_iff in Hlf. destruct Hlf as [Ha Hlf].
    simpl in Hn. destruct (IH n rest Hlf ltac:(lia)) as [Hi Ht].
    simpl. rewrite Ha, Hi, Ht. split; reflexivity.
Qed.

(** The first line of what a new scanner reads, when it is shorter than
    the first buffer. *)
Lemma firstScan_line (l rest : string) :
  contains_byte LF l = false -> len l < bufio.startBufSize ->
  fst (fst (bufio.firstScan bufio.bufSizes (l ++ String LF rest))) = bufio.dropCR l.
Proof.
  intros Hlf Hlen. unfold bufio.bufSizes. cbn [bufio.firstScan].
  destruct (IndexByte_line l (Z.to_nat bufio.startBufSize) rest Hlf) as [Hi Ht].
  { unfold len in Hlen. lia. }
  rewrite Hi, Ht. reflexivity.
Qed.

(** From the end of the log, turns that find nothing new are followed
    by the turn that finds the line, and that turn is the last. *)
Lemma pollLoop_finds_new_line (re : regexp.Regexp) (threshold : time.Time)
  (l rest : string) (more : list string) (k : nat) :
  contains_byte LF l = false -> len l < bufio.startBufSize ->
  stops re threshold (bufio.dropCR l) = true ->
  snd (timeFromLog (bufio.dropCR l)) = None ->
  forall n fs file,
    (k < n)%nat -> os.offset file = len (os.bytes (fs (os.path file))) ->
    pollLoop n re threshold fs file (repeat "" k ++ (l ++ String LF rest)%string :: more)%list
    = mkPoll None (repeat (os.offset file, "") k ++ [(os.offset file, bufio.dropCR l)])%list.
Proof.
  intros Hlf Hlen Hst Herr.
  induction k as [| k IH]; intros n fs file Hk Hoff;
    (destruct n as [| n]; [lia |]); rewrite pollLoop_S; cbn [repeat app hd tl].
  - assert (Hd : drop (Z.to_nat (os.offset file))
                   (os.bytes (fs (os.path file)) ++ l ++ String LF rest)
                 = l ++ String LF rest).
    { rewrite Hoff. unfold len. rewrite Nat2Z.id. apply drop_append. }
    unfold firstLine. rewrite Hd, firstScan_line by assumption.
    unfold stops in Hst. unfold inspect.
    apply andb_true_iff in Hst. destruct Hst as [Hst Hafter].
    apply andb_true_iff in Hst. destruct Hst as [Hne Hm].
    apply negb_true_iff in Hne. rewrite Hne, Hm.
    destruct (timeFromLog (bufio.dropCR l)) as [date e]. simpl in Herr, Hafter.
    subst e. rewrite Hafter. reflexivity.
  - assert (Hrest : drop (Z.to_nat (os.offset file)) (os.bytes (fs (os.path file))) = "").
    { apply drop_all. rewrite Hoff. unfold len. lia. }
    assert (Hl : firstLine (os.bytes (fs (os.path file)) ++ "") (os.offset file) = "").
    { unfold firstLine. rewrite append_empty_r, Hrest, firstScan_empty. reflexivity. }
    assert (Ht : taken (os.bytes (fs (os.path file)) ++ "") (os.offset file) = 0).
    { unfold taken. rewrite append_empty_r, Hrest, firstScan_empty. reflexivity. }
    rewrite Hl, Ht, inspect_empty.
    rewrite IH.
    + cbn [os.offset]. rewrite Z.add_0_r. reflexivity.
    + lia.
    + cbn [os.path os.offset]. rewrite bytes_append, append_empty_r.
      rewrite Z.add_0_r. exact Hoff.
Qed.

(** X14: a completion line that the log gains during the poll is found.
    The first turn reads the window of the log as it was and does not
    stop there; after [k] more turns without anything new the log gains
    a text whose first line, shorter than 4096 bytes, passes the test.
    The poll then ends at that turn, turn [k + 2] of at most ten, with
    nil. *)
Theorem new_completion_line_is_found (fs : os.FS) (filePath expression : string)
  (threshold : time.Time) (l rest : string) (more : list string) (k : nat) :
  os.open_err (fs filePath) = None -> os.stat_err (fs filePath) = None ->
  let data := os.bytes (fs filePath) in
  let start := len data + tailSeek (len data) in
  let re := rotationPattern expression in
  stops re threshold (firstLine data start) = false ->
  contains_byte LF l = false -> len l < bufio.startBufSize ->
  stops re threshold (bufio.dropCR l) = true ->
  (k < 9)%nat ->
  waitForRotation fs (repeat "" (S k) ++ (l ++ String LF rest)%string :: more)%list
                  filePath expression threshold
  = mkPoll None ((start, firstLine data start)
                 :: repeat (len data, "") k ++ [(len data, bufio.dropCR l)])%list.
Proof.
  intros Ho Hs data start re Hfirst Hlf Hlen Hst Hk.
  rewrite waitForRotation_eq by assumption. fold data. fold start. fold re.
  rewrite pollLoop_S. cbn [repeat app hd tl os.path os.offset]. fold data.
  rewrite append_empty_r.
  pose proof (inspect_never_returns expression threshold (firstLine data start)) as Hr.
  pose proof (inspect_Break_iff expression threshold (firstLine data start)) as Hb.
  fold re in Hr, Hb.
  destruct (inspect re threshold (firstLine data start)) eqn:Hi.
  - pose proof (tailSeek_in_file (len data) (len_nonneg _)) as Hw. fold start in Hw.
    assert (Htk : start + taken data start = len data).
    { unfold taken. rewrite firstScan_short.
      - rewrite length_drop. unfold len in *. lia.
      - unfold len. rewrite length_drop. unfold bufio.startBufSize, len in *. lia. }
    rewrite Htk.
    assert (Herr : snd (timeFromLog (bufio.dropCR l)) = None).
    { eapply stops_has_timestamp. exact Hst. }
    rewrite (pollLoop_finds_new_line re threshold l rest more k Hlf Hlen Hst Herr).
    + reflexivity.
    + exact Hk.
    + cbn [os.path os.offset]. rewrite bytes_append, append_empty_r. reflexivity.
  - destruct Hb as [Hb _]. rewrite (Hb eq_refl) in Hfirst. discriminate.
  - exfalso. eapply Hr. reflexivity.
Qed.

Lemma new_completion_line_is_found_witness :
  waitForRotation
    (logWith (line "[Mon Jan 2 15:04:05.100 2012] rotating index 'main': success"))
    (repeat "" 3
     ++ [line "[Mon Jan 2 15:04:10.000 2013] rotating index: all indexes done"])%list
    searchdLogPath marker baseDate
  = mkPoll None
      [(1, "Mon Jan 2 15:04:05.100 2012] rotating index 'main': success");
       (61, ""); (61, "");
       (61, "[Mon Jan 2 15:04:10.000 2013] rotating index: all indexes done")].
Proof.
  apply (new_completion_line_is_found
           (logWith (line "[Mon Jan 2 15:04:05.100 2012] rotating index 'main': success"))
           searchdLogPath marker baseDate
           "[Mon Jan 2 15:04:10.000 2013] rotating index: all indexes done" "" [] 2).
  - reflexivity.
  - reflexivity.
  - vm_compute. reflexivity.
  - vm_compute. reflexivity.
  - vm_compute. reflexivity.
  - vm_compute. reflexivity.
  - lia.
Defined.
